(** * K12-DogProject: the mechanical dog simulation, slow and optimized

    A shallow embedding of [dog_simulation_optimized.py] (class
    [MechanicalDogOptimized]) and [dog_simulation_slow.py] (class
    [MechanicalDog]), and the properties their specification states.

    Python numbers.  The simulation computes on Python floats and, in the
    scanner and the classifier, on Python ints.  Ints are [Z].  Floats are
    kept behind the interface [Scalar], which lists exactly the float
    operations the two classes use; every method is written once over that
    interface and read at two instances:
    - [R]: exact real arithmetic, the specification's "exact real-valued"
      Vector3; the general theorems are proved here;
    - [PrimFloat.float]: IEEE 754 binary64 with round-to-nearest-even, the
      arithmetic CPython runs; the concrete runs are evaluated here.
    What holds of the code whatever the arithmetic is stated for every
    instance.  CPython's [**] raises [OverflowError] where IEEE arithmetic
    gives an infinity: the slow class, which squares with [**], has its
    calls modelled with that check too ([call_...]).

    Methods that read or write [self] are functions from the object's state
    to a result (a value or a Python exception) and the state afterwards. *)

From Stdlib Require Import PrimFloat Uint63 SpecFloat FloatOps FloatAxioms.
From Stdlib Require Import ZArith Reals Lra Lia List String.
From stdpp Require Import base list gmap sets.

Set Default Proof Using "Type".

(** ** Floats *)

Class Scalar (T : Type) := {
  fzero : T;                      (* 0.0 *)
  of_int : Z -> T;                (* an int operand converted by a float operation *)
  fadd : T -> T -> T;             (* x + y *)
  fsub : T -> T -> T;             (* x - y *)
  fmul : T -> T -> T;             (* x * y *)
  fdiv : T -> T -> T;             (* x / y, used for the decimal literals only *)
  fsquare : T -> T;               (* x ** 2 and math.pow(x, 2) *)
  fsqrt : T -> T;                 (* math.sqrt(x) *)
  fltb : T -> T -> bool;          (* x < y *)
}.

(** The decimal literal [p/q] of the source text: the float nearest to it. *)
Definition literal `{Scalar T} (p q : Z) : T := fdiv (of_int p) (of_int q).

Definition Rltb (x y : R) : bool := if Rlt_dec x y then true else false.

#[global] Instance R_scalar : Scalar R := {|
  fzero := 0%R;
  of_int := IZR;
  fadd := Rplus;
  fsub := Rminus;
  fmul := Rmult;
  fdiv := Rdiv;
  fsquare := fun x => (x * x)%R;
  fsqrt := sqrt;
  fltb := Rltb;
|}.

(** [float(n)] for an int of at most 63 bits, which covers every int the
    simulation converts (loop counters and the constants 1, 10 and 100). *)
Definition float_of_int (z : Z) : float :=
  match z with
  | Z0 => PrimFloat.zero
  | Zpos _ => PrimFloat.of_uint63 (Uint63.of_Z z)
  | Zneg _ => PrimFloat.opp (PrimFloat.of_uint63 (Uint63.of_Z (Z.opp z)))
  end.

(** In binary64 [fsquare] is the correctly rounded square.  CPython takes
    [x ** 2] and [math.pow(x, 2)] from the C library's [pow]: the same
    float wherever the square is exact, as it is for the small integers
    and the unit steps squared in the runs evaluated below, possibly the
    neighbouring float elsewhere; and it raises [OverflowError] where the
    square of a finite float overflows ([float_pow2] below). *)
#[global] Instance binary64_scalar : Scalar float := {|
  fzero := PrimFloat.zero;
  of_int := float_of_int;
  fadd := PrimFloat.add;
  fsub := PrimFloat.sub;
  fmul := PrimFloat.mul;
  fdiv := PrimFloat.div;
  fsquare := fun x => PrimFloat.mul x x;
  fsqrt := PrimFloat.sqrt;
  fltb := PrimFloat.ltb;
|}.

(** Whether a float is finite, neither an infinity nor a NaN
    ([math.isfinite]); every real is. *)
Class Finiteness (T : Type) := ffinite : T -> bool.

#[global] Instance R_finiteness : Finiteness R := fun _ => true.
#[global] Instance binary64_finiteness : Finiteness float := PrimFloat.is_finite.

(** The real number that a finite float is exactly ([0] for an infinity or
    a NaN). *)
Definition real_of_float (x : float) : R :=
  match Prim2SF x with
  | S754_finite s m e => ((if s then -1 else 1) * IZR (Zpos m) * powerRZ 2 e)%R
  | _ => 0%R
  end.

(** ** Python values, exceptions and sequences *)

Inductive pyexn := IndexError | TypeError | OverflowError.

(** The outcome of a call: an exception raised, or the value returned. *)
Inductive result (A : Type) : Type :=
  | Raise (e : pyexn)
  | Return (a : A).
Arguments Raise {A} e.
Arguments Return {A} a.

#[global] Instance result_ret : MRet result := fun A a => Return a.
#[global] Instance result_bind : MBind result := fun A B k r =>
  match r with
  | Raise e => Raise e
  | Return a => k a
  end.

(** Whether CPython's range check on [x ** 2] fails: the operand is finite
    and its square is not. *)
Definition square_overflows `{Scalar T} `{Finiteness T} (x : T) : bool :=
  ffinite x && negb (ffinite (fsquare x)).

(** [x ** 2] and [math.pow(x, 2)] on a float, as CPython evaluates them: the
    square, or [OverflowError] when the range check fails. *)
Definition float_pow2 `{Scalar T} `{Finiteness T} (x : T) : result T :=
  if square_overflows x then Raise OverflowError else Return (fsquare x).

(** A [for] loop whose body may raise: the first exception ends the loop. *)
Fixpoint for_each {A S} (xs : list A) (body : A -> S -> result S) (s : S) : result S :=
  match xs with
  | [] => Return s
  | x :: xs' => s' ← body x s; for_each xs' body s'
  end.

(** [range(n)]: empty when [n <= 0]. *)
Definition py_range (n : Z) : list Z := seqZ 0 n.

(** [[x] * n]: empty when [n <= 0]. *)
Definition py_repeat {A} (x : A) (n : Z) : list A := replicate (Z.to_nat n) x.

(** [l[i]] for an int [i]: a negative index counts from the end. *)
Definition py_getitem {A} (l : list A) (i : Z) : result A :=
  let n := Z.of_nat (length l) in
  let k := if (i <? 0)%Z then (i + n)%Z else i in
  if ((k <? 0)%Z || (n <=? k)%Z)%bool then Raise IndexError
  else match l !! Z.to_nat k with
       | Some a => Return a
       | None => Raise IndexError
       end.

(** [l[i] = v] for an index counter [i] that is never negative. *)
Definition py_setitem {A} (l : list A) (i : nat) (v : A) : result (list A) :=
  if (i <? length l)%nat then Return (<[i := v]> l) else Raise IndexError.

(** A number held in a list of readings: an int or a float. *)
Inductive pynum (T : Type) := PyInt (z : Z) | PyFloat (x : T).
Arguments PyInt {T} z.
Arguments PyFloat {T} x.

(** The float [0.0] as a reading: what a slot of the scanner's list holds
    before it is written. *)
Abbreviation blank := (PyFloat fzero).

(** A position, velocity, target or waypoint: three floats. *)
Record vec3 (T : Type) := Vec3 { vx : T; vy : T; vz : T }.
Arguments Vec3 {T} vx vy vz.
Arguments vx {T} v.
Arguments vy {T} v.
Arguments vz {T} v.

(** [collections.deque(maxlen=m).append(x)]: the entry goes to the right end
    and, when the deque then exceeds [m], the leftmost entry is dropped. *)
Definition deque_append {A} (maxlen : nat) (x : A) (d : list A) : list A :=
  let d' := d ++ [x] in
  if (maxlen <? length d')%nat then tail d' else d'.

(** ** The optimized class *)

Module MechanicalDogOptimized.
Section Methods.
Context {T : Type} `{Scalar T}.

Record dog := Dog {
  name : string;
  position : vec3 T;
  velocity : vec3 T;
  leg_positions : list (vec3 T);
  sensor_data : list (pynum T);
  movement_history : list (vec3 T);
  maxlen : nat;                       (* of the deque movement_history *)
}.

(** A method: from the state of [self] to its outcome and the state after. *)
Definition method (A : Type) : Type := dog -> result A * dog.

Definition set_position (p : vec3 T) (self : dog) : dog :=
  Dog (name self) p (velocity self) (leg_positions self) (sensor_data self)
      (movement_history self) (maxlen self).

Definition set_velocity (v : vec3 T) (self : dog) : dog :=
  Dog (name self) (position self) v (leg_positions self) (sensor_data self)
      (movement_history self) (maxlen self).

Definition set_sensor_data (s : list (pynum T)) (self : dog) : dog :=
  Dog (name self) (position self) (velocity self) (leg_positions self) s
      (movement_history self) (maxlen self).

Definition set_movement_history (h : list (vec3 T)) (self : dog) : dog :=
  Dog (name self) (position self) (velocity self) (leg_positions self)
      (sensor_data self) h (maxlen self).

Definition origin : vec3 T := Vec3 fzero fzero fzero.

(** [__init__(self, name, max_history=1000)], for a capacity that is a
    non-negative int. *)
Definition init (name : string) (max_history : nat) : dog :=
  Dog name origin origin (replicate 4 origin) [] [] max_history.

(** [update_position(self, delta_time)] *)
Definition update_position (delta_time : T) : method unit := fun self =>
  let p := position self in
  let v := velocity self in
  let p' := Vec3 (fadd (vx p) (fmul (vx v) delta_time))
                 (fadd (vy p) (fmul (vy v) delta_time))
                 (fadd (vz p) (fmul (vz v) delta_time)) in
  let self := set_position p' self in
  (Return tt,
   set_movement_history
     (deque_append (maxlen self) (position self) (movement_history self)) self).

(** [calculate_leg_kinematics(self, leg_index, target_position)] *)
Definition calculate_leg_kinematics (leg_index : Z) (target_position : vec3 T)
  : method T := fun self =>
  (leg ← py_getitem (leg_positions self) leg_index;
   let dx := fsub (vx target_position) (vx leg) in
   let dy := fsub (vy target_position) (vy leg) in
   let dz := fsub (vz target_position) (vz leg) in
   Return (fsqrt (fadd (fadd (fmul dx dx) (fmul dy dy)) (fmul dz dz))),
   self).

(** The inner loop of [scan_environment]: one row of the grid. *)
Definition scan_row (num_samples i_squared : Z) (st : list (pynum T) * nat)
  : result (list (pynum T) * nat) :=
  for_each (py_range num_samples)
    (fun j '(sensor_readings, idx) =>
       r ← py_setitem sensor_readings idx (PyInt (i_squared + j * j)%Z);
       Return (r, S idx))
    st.

(** [scan_environment(self, num_samples)] *)
Definition scan_environment (num_samples : Z) : method (list (pynum T)) := fun self =>
  let total_readings := (num_samples * num_samples)%Z in
  let sensor_readings := py_repeat (PyFloat fzero) total_readings in
  match for_each (py_range num_samples)
          (fun i st => scan_row num_samples (i * i)%Z st)
          (sensor_readings, 0%nat) with
  | Raise e => (Raise e, self)
  | Return (sensor_readings, _) =>
      (Return sensor_readings, set_sensor_data sensor_readings self)
  end.

(** [find_obstacles(self, sensor_data)], on int readings (what
    [scan_environment] writes and what the tests and the benchmark pass);
    [self] is not used. *)
Definition find_obstacles (sensor_data : list Z) : gset Z :=
  let threshold := 1000%Z in
  foldl (fun (obstacles : gset Z) reading =>
           if (threshold <? reading)%Z then {[reading]} ∪ obstacles else obstacles)
        ∅ sensor_data.

(** The loop [for step in range(1000)] of [plan_path], [steps] iterations
    from the end. *)
Fixpoint plan_loop (steps : nat) (goal : vec3 T) (step_size tolerance_sq : T)
    (current : vec3 T) (path : list (vec3 T)) : list (vec3 T) :=
  match steps with
  | O => path
  | S steps' =>
      let dx := fsub (vx goal) (vx current) in
      let dy := fsub (vy goal) (vy current) in
      let dz := fsub (vz goal) (vz current) in
      let dist_squared := fadd (fadd (fmul dx dx) (fmul dy dy)) (fmul dz dz) in
      if fltb dist_squared tolerance_sq then path
      else
        let current := Vec3 (fadd (vx current) (fmul dx step_size))
                            (fadd (vy current) (fmul dy step_size))
                            (fadd (vz current) (fmul dz step_size)) in
        plan_loop steps' goal step_size tolerance_sq current (path ++ [current])
  end.

(** [plan_path(self, start, goal, obstacles)]; [self] is not used, and
    [obstacles] may be any object. *)
Definition plan_path {O : Type} (start goal : vec3 T) (obstacles : O) : list (vec3 T) :=
  let step_size := literal 1 100 in
  let tolerance := literal 1 10 in
  let tolerance_sq := fmul tolerance tolerance in
  plan_loop 1000 goal step_size tolerance_sq start [].

(** The body of the loop of [calculate_energy_consumption].  A log entry
    [(i, energy)] stands for the line [f"Step {i}: {energy} units"]. *)
Definition energy_step (path : list (vec3 T)) (i : Z) (st : T * list (Z * T))
  : result (T * list (Z * T)) :=
  let '(total_energy, energy_log_parts) := st in
  current ← py_getitem path i;
  next_pos ← py_getitem path (i + 1)%Z;
  let dx := fsub (vx next_pos) (vx current) in
  let dy := fsub (vy next_pos) (vy current) in
  let dz := fsub (vz next_pos) (vz current) in
  let distance := fsqrt (fadd (fadd (fmul dx dx) (fmul dy dy)) (fmul dz dz)) in
  let energy := fmul distance (of_int 10) in
  Return (fadd total_energy energy, energy_log_parts ++ [(i, energy)]).

(** [calculate_energy_consumption(self, path)]; [self] is not used.  The
    log is returned as its lines, which the source joins with newlines. *)
Definition calculate_energy_consumption (path : list (vec3 T))
  : result (T * list (Z * T)) :=
  let path_len := Z.of_nat (length path) in
  for_each (py_range (path_len - 1)) (energy_step path) (fzero, []).

(** An argument of a call: a list of readings or an int. *)
Inductive pyarg := ArgReadings (l : list Z) | ArgInt (z : Z).

(** A call of [dog.find_obstacles] with the positional arguments [args] and
    the keyword arguments [kwargs].  The signature is
    [find_obstacles(self, sensor_data)]: one parameter besides [self], no
    default, so the call binds exactly one argument, positional or named
    [sensor_data], and any other argument list is a [TypeError]; so is
    iterating over an int. *)
Definition call_find_obstacles (args : list pyarg) (kwargs : list (string * pyarg))
  : result (gset Z) :=
  sensor_data ← match args, kwargs with
                | [a], [] => Return a
                | [], [(k, a)] =>
                    if String.eqb k "sensor_data" then Return a else Raise TypeError
                | _, _ => Raise TypeError
                end;
  match sensor_data with
  | ArgReadings l => Return (find_obstacles l)
  | ArgInt _ => Raise TypeError
  end.

(** The public operations, and the state of [self] after one of them.
    [find_obstacles], [plan_path] and [calculate_energy_consumption] take
    [self] and never read or write it. *)
Inductive operation :=
  | UpdatePosition (delta_time : T)
  | CalculateLegKinematics (leg_index : Z) (target_position : vec3 T)
  | ScanEnvironment (num_samples : Z)
  | FindObstacles (sensor_data : list Z)
  | PlanPath (start goal : vec3 T) (obstacles : gset Z)
  | CalculateEnergyConsumption (path : list (vec3 T)).

Definition perform (op : operation) (self : dog) : dog :=
  match op with
  | UpdatePosition delta_time => snd (update_position delta_time self)
  | CalculateLegKinematics leg_index target_position =>
      snd (calculate_leg_kinematics leg_index target_position self)
  | ScanEnvironment num_samples => snd (scan_environment num_samples self)
  | FindObstacles _ | PlanPath _ _ _ | CalculateEnergyConsumption _ => self
  end.

(** A run of [update_position] calls, one per entry of [dts]. *)
Definition run_updates (dts : list T) (self : dog) : dog :=
  foldl (fun self delta_time => snd (update_position delta_time self)) self dts.

(** The history never exceeds the capacity of its deque. *)
Definition history_bounded (self : dog) : Prop :=
  (length (movement_history self) <= maxlen self)%nat.

(** What a caller does to an agent: it calls an operation, or it assigns
    the attribute [velocity], as the tests and the simulation do. *)
Inductive action :=
  | Call (op : operation)
  | AssignVelocity (v : vec3 T).

Definition act (a : action) (self : dog) : dog :=
  match a with
  | Call op => perform op self
  | AssignVelocity v => set_velocity v self
  end.

Definition act_all (acts : list action) (self : dog) : dog :=
  foldl (fun self a => act a self) self acts.

(** The ints among some readings: all of them, for the readings of a scan
    of non-negative size. *)
Definition int_readings (readings : list (pynum T)) : list Z :=
  omap (fun reading => match reading with
                       | PyInt z => Some z
                       | PyFloat _ => None
                       end) readings.

(** The body of the loop of [simulate_dog_movement]. *)
Definition simulate_step (step : Z) (the_dog : dog) : result dog :=
  let '(_, the_dog) := update_position (literal 1 10) the_dog in
  the_dog ← (if (step mod 10 =? 0)%Z then
           let '(scanned, the_dog) := scan_environment 20 the_dog in
           sensor_data ← scanned;
           let obstacles := find_obstacles (int_readings sensor_data) in
           Return the_dog
         else Return the_dog);
  for_each (py_range 4)
    (fun leg the_dog =>
       let target := Vec3 (fmul (of_int step) (literal 1 10))
                          (fmul (of_int step) (literal 1 10)) fzero in
       let '(distance, the_dog) := calculate_leg_kinematics leg target the_dog in
       _ ← distance; Return the_dog)
    the_dog.

(** [simulate_dog_movement(num_steps=100)]: the dog it returns, the local
    [dog] of the source being [the_dog] here.  The clock readings and the
    printed report are left out. *)
Definition simulate_dog_movement (num_steps : Z) : result dog :=
  let the_dog := init "Spot" 1000 in
  let the_dog := set_velocity (Vec3 (of_int 1) (literal 1 2) fzero) the_dog in
  for_each (py_range num_steps) simulate_step the_dog.

End Methods.
Arguments dog T : clear implicits.
Arguments method T A : clear implicits.
End MechanicalDogOptimized.

(** ** The slow class *)

Module MechanicalDog.
Section Methods.
Context {T : Type} `{Scalar T}.

Record dog := Dog {
  name : string;
  position : vec3 T;
  velocity : vec3 T;
  leg_positions : list (vec3 T);
  sensor_data : list (pynum T);
  movement_history : list (vec3 T);
}.

Definition method (A : Type) : Type := dog -> result A * dog.

Definition set_position (p : vec3 T) (self : dog) : dog :=
  Dog (name self) p (velocity self) (leg_positions self) (sensor_data self)
      (movement_history self).

Definition set_velocity (v : vec3 T) (self : dog) : dog :=
  Dog (name self) (position self) v (leg_positions self) (sensor_data self)
      (movement_history self).

Definition set_sensor_data (s : list (pynum T)) (self : dog) : dog :=
  Dog (name self) (position self) (velocity self) (leg_positions self) s
      (movement_history self).

Definition set_movement_history (h : list (vec3 T)) (self : dog) : dog :=
  Dog (name self) (position self) (velocity self) (leg_positions self)
      (sensor_data self) h.

Definition origin : vec3 T := Vec3 fzero fzero fzero.

(** [__init__(self, name)] *)
Definition init (name : string) : dog :=
  Dog name origin origin (replicate 4 origin) [] [].

(** [update_position(self, delta_time)] *)
Definition update_position (delta_time : T) : method unit := fun self =>
  let p := position self in
  let v := velocity self in
  let new_position := Vec3 (fadd (vx p) (fmul (vx v) delta_time))
                           (fadd (vy p) (fmul (vy v) delta_time))
                           (fadd (vz p) (fmul (vz v) delta_time)) in
  let self := set_position new_position self in
  (Return tt,
   set_movement_history (movement_history self ++ [position self]) self).

(** [float(str(x))]: the text of a float reads back as the same float. *)
Definition float_of_str_of (x : T) : T := x.

(** [calculate_leg_kinematics(self, leg_index, target_position)].  The list
    [angles] of a hundred sines times cosines is computed and never read; it
    is left out. *)
Definition calculate_leg_kinematics (leg_index : Z) (target_position : vec3 T)
  : method T := fun self =>
  (leg0 ← py_getitem (leg_positions self) leg_index;
   let d0 := float_of_str_of (fsub (vx target_position) (vx leg0)) in
   leg1 ← py_getitem (leg_positions self) leg_index;
   let d1 := float_of_str_of (fsub (vy target_position) (vy leg1)) in
   leg2 ← py_getitem (leg_positions self) leg_index;
   let d2 := float_of_str_of (fsub (vz target_position) (vz leg2)) in
   Return (fsqrt (fadd (fadd (fadd (of_int 0) (fsquare d0)) (fsquare d1)) (fsquare d2))),
   self).

(** [scan_environment(self, num_samples)] *)
Definition scan_environment (num_samples : Z) : method (list (pynum T)) := fun self =>
  let sensor_readings :=
    foldl (fun readings i =>
             foldl (fun readings j =>
                      let reading := fadd (fsquare (of_int i)) (fsquare (of_int j)) in
                      readings ++ [PyFloat reading])
                   readings (py_range num_samples))
          [] (py_range num_samples) in
  (Return sensor_readings,
   set_sensor_data (sensor_data self ++ sensor_readings) self).

(** [find_obstacles(self, sensor_data)], on int readings. *)
Definition find_obstacles (sensor_data : list Z) : list Z :=
  let threshold := 1000%Z in
  foldl (fun obstacles reading =>
           if (threshold <? reading)%Z then
             if bool_decide (reading ∈ obstacles) then obstacles
             else obstacles ++ [reading]
           else obstacles)
        [] sensor_data.

(** The loop [for step in range(1000)] of [plan_path]. *)
Fixpoint plan_loop (steps : nat) (goal : vec3 T) (current : vec3 T)
    (path : list (vec3 T)) : list (vec3 T) :=
  match steps with
  | O => path
  | S steps' =>
      let next_pos := current in
      let dist_to_goal :=
        fsqrt (fadd (fadd (fsquare (fsub (vx goal) (vx next_pos)))
                          (fsquare (fsub (vy goal) (vy next_pos))))
                    (fsquare (fsub (vz goal) (vz next_pos)))) in
      if fltb dist_to_goal (literal 1 10) then path
      else
        let next_pos :=
          Vec3 (fadd (vx next_pos) (fmul (fsub (vx goal) (vx next_pos)) (literal 1 100)))
               (fadd (vy next_pos) (fmul (fsub (vy goal) (vy next_pos)) (literal 1 100)))
               (fadd (vz next_pos) (fmul (fsub (vz goal) (vz next_pos)) (literal 1 100))) in
        plan_loop steps' goal next_pos (path ++ [next_pos])
  end.

(** [plan_path(self, start, goal, obstacles)] *)
Definition plan_path {O : Type} (start goal : vec3 T) (obstacles : O) : list (vec3 T) :=
  plan_loop 1000 goal start [].

(** The body of the loop of [calculate_energy_consumption]. *)
Definition energy_step (path : list (vec3 T)) (i : Z) (st : T * list (Z * T))
  : result (T * list (Z * T)) :=
  let '(total_energy, energy_log) := st in
  current ← py_getitem path i;
  next_pos ← py_getitem path (i + 1)%Z;
  let distance := of_int 0 in
  let distance := fadd distance (fsquare (fsub (vx next_pos) (vx current))) in
  let distance := fadd distance (fsquare (fsub (vy next_pos) (vy current))) in
  let distance := fadd distance (fsquare (fsub (vz next_pos) (vz current))) in
  let distance := fsqrt distance in
  let energy := fmul distance (of_int 10) in
  Return (fadd total_energy energy, energy_log ++ [(i, energy)]).

(** [calculate_energy_consumption(self, path)]: the total starts from the
    int [0]; the log is returned as its lines. *)
Definition calculate_energy_consumption (path : list (vec3 T))
  : result (T * list (Z * T)) :=
  for_each (py_range (Z.of_nat (length path) - 1)) (energy_step path) (of_int 0, []).

(** A run of [update_position] calls, one per entry of [dts]. *)
Definition run_updates (dts : list T) (self : dog) : dog :=
  foldl (fun self delta_time => snd (update_position delta_time self)) self dts.

(** The methods above take [d ** 2] as the float operation [fsquare]: what
    the call returns whenever it returns.  CPython checks the range of [**]
    besides; the calls below are the same three methods with that check, so
    that they raise [OverflowError] where a square overflows.  (In
    [scan_environment] the operand of [math.pow] is a loop counter, whose
    square overflows for no grid that a list can hold.) *)
Context `{Finiteness T}.

(** A call of [calculate_leg_kinematics(self, leg_index, target_position)]:
    the three differences are read first, then squared in order. *)
Definition call_calculate_leg_kinematics (leg_index : Z) (target_position : vec3 T)
  : method T := fun self =>
  (leg0 ← py_getitem (leg_positions self) leg_index;
   let d0 := float_of_str_of (fsub (vx target_position) (vx leg0)) in
   leg1 ← py_getitem (leg_positions self) leg_index;
   let d1 := float_of_str_of (fsub (vy target_position) (vy leg1)) in
   leg2 ← py_getitem (leg_positions self) leg_index;
   let d2 := float_of_str_of (fsub (vz target_position) (vz leg2)) in
   s0 ← float_pow2 d0;
   s1 ← float_pow2 d1;
   s2 ← float_pow2 d2;
   Return (fsqrt (fadd (fadd (fadd (of_int 0) s0) s1) s2)),
   self).

(** The loop of a call of [plan_path]. *)
Fixpoint call_plan_loop (steps : nat) (goal : vec3 T) (current : vec3 T)
    (path : list (vec3 T)) : result (list (vec3 T)) :=
  match steps with
  | O => Return path
  | S steps' =>
      let next_pos := current in
      sx ← float_pow2 (fsub (vx goal) (vx next_pos));
      sy ← float_pow2 (fsub (vy goal) (vy next_pos));
      sz ← float_pow2 (fsub (vz goal) (vz next_pos));
      let dist_to_goal := fsqrt (fadd (fadd sx sy) sz) in
      if fltb dist_to_goal (literal 1 10) then Return path
      else
        let next_pos :=
          Vec3 (fadd (vx next_pos) (fmul (fsub (vx goal) (vx next_pos)) (literal 1 100)))
               (fadd (vy next_pos) (fmul (fsub (vy goal) (vy next_pos)) (literal 1 100)))
               (fadd (vz next_pos) (fmul (fsub (vz goal) (vz next_pos)) (literal 1 100))) in
        call_plan_loop steps' goal next_pos (path ++ [next_pos])
  end.

(** A call of [plan_path(self, start, goal, obstacles)]. *)
Definition call_plan_path {O : Type} (start goal : vec3 T) (obstacles : O)
  : result (list (vec3 T)) :=
  call_plan_loop 1000 goal start [].



(** The floats among some readings: all of them, for the readings that
    [scan_environment] of this class returns. *)
Definition float_readings (readings : list (pynum T)) : list T :=
  omap (fun reading => match reading with
                       | PyInt _ => None
                       | PyFloat x => Some x
                       end) readings.

(** [x == y] for two floats above the threshold, hence not NaN: neither is
    less than the other. *)
Definition float_eqb (x y : T) : bool := negb (fltb x y) && negb (fltb y x).

(** [find_obstacles(self, sensor_data)] on float readings, those of a scan
    of this class; [reading > threshold] compares the float with the int
    1000, which is a float exactly. *)
Definition find_obstacles_floats (sensor_data : list T) : list T :=
  let threshold := 1000%Z in
  foldl (fun obstacles reading =>
           if fltb (of_int threshold) reading then
             if existsb (float_eqb reading) obstacles then obstacles
             else obstacles ++ [reading]
           else obstacles)
        [] sensor_data.

(** The body of the loop of [simulate_dog_movement]. *)
Definition simulate_step (step : Z) (the_dog : dog) : result dog :=
  let '(_, the_dog) := update_position (literal 1 10) the_dog in
  let '(scanned, the_dog) := scan_environment 20 the_dog in
  sensor_data ← scanned;
  let obstacles := find_obstacles_floats (float_readings sensor_data) in
  for_each (py_range 4)
    (fun leg the_dog =>
       let target := Vec3 (fmul (of_int step) (literal 1 10))
                          (fmul (of_int step) (literal 1 10)) (of_int 0) in
       let '(distance, the_dog) := calculate_leg_kinematics leg target the_dog in
       _ ← distance; Return the_dog)
    the_dog.

(** [simulate_dog_movement(num_steps=100)]: the dog it returns, the local
    [dog] of the source being [the_dog] here.  The clock readings and the
    printed report are left out. *)
Definition simulate_dog_movement (num_steps : Z) : result dog :=
  let the_dog := init "Spot" in
  let the_dog := set_velocity (Vec3 (of_int 1) (literal 1 2) fzero) the_dog in
  for_each (py_range num_steps) simulate_step the_dog.

End Methods.
Arguments dog T : clear implicits.
Arguments method T A : clear implicits.
End MechanicalDog.

(** ** Notions of the specification *)

Section Specification.
Context {T : Type} `{Scalar T}.

(** The position that one [update_position] reaches. *)
Definition moved (p v : vec3 T) (delta_time : T) : vec3 T :=
  Vec3 (fadd (vx p) (fmul (vx v) delta_time))
       (fadd (vy p) (fmul (vy v) delta_time))
       (fadd (vz p) (fmul (vz v) delta_time)).

(** The positions reached by a run of updates from [p] at velocity [v],
    in order: entry [k] is the snapshot that update number [k + 1] records. *)
Fixpoint snapshots (p v : vec3 T) (dts : list T) : list (vec3 T) :=
  match dts with
  | [] => []
  | delta_time :: dts' =>
      moved p v delta_time :: snapshots (moved p v delta_time) v dts'
  end.

(** The position after a run of updates from [p] at velocity [v]. *)
Definition travelled (p v : vec3 T) (dts : list T) : vec3 T :=
  foldl (fun p delta_time => moved p v delta_time) p dts.

(** Squared Euclidean distance and Euclidean distance of two points. *)
Definition dist_squared (a b : vec3 T) : T :=
  let dx := fsub (vx b) (vx a) in
  let dy := fsub (vy b) (vy a) in
  let dz := fsub (vz b) (vz a) in
  fadd (fadd (fmul dx dx) (fmul dy dy)) (fmul dz dz).

Definition distance (a b : vec3 T) : T := fsqrt (dist_squared a b).

(** One step of the planner from [current] toward [goal]. *)
Definition step_toward (goal : vec3 T) (step_size : T) (current : vec3 T) : vec3 T :=
  Vec3 (fadd (vx current) (fmul (fsub (vx goal) (vx current)) step_size))
       (fadd (vy current) (fmul (fsub (vy goal) (vy current)) step_size))
       (fadd (vz current) (fmul (fsub (vz goal) (vz current)) step_size)).

(** The point reached after [n] steps, and the [n] waypoints on the way. *)
Fixpoint reached (n : nat) (goal : vec3 T) (step_size : T) (current : vec3 T)
  : vec3 T :=
  match n with
  | O => current
  | S n' => reached n' goal step_size (step_toward goal step_size current)
  end.

Fixpoint waypoints (n : nat) (goal : vec3 T) (step_size : T) (current : vec3 T)
  : list (vec3 T) :=
  match n with
  | O => []
  | S n' => step_toward goal step_size current
            :: waypoints n' goal step_size (step_toward goal step_size current)
  end.

(** The energies of the segments of a path: ten times each length. *)
Fixpoint segment_energies (path : list (vec3 T)) : list T :=
  match path with
  | [] => []
  | a :: rest =>
      match rest with
      | [] => []
      | b :: _ => fmul (distance a b) (of_int 10) :: segment_energies rest
      end
  end.

(** The log entries of a list of energies, numbered from [start]. *)
Fixpoint numbered (start : Z) (energies : list T) : list (Z * T) :=
  match energies with
  | [] => []
  | e :: es => (start, e) :: numbered (start + 1) es
  end.

(** The grid of the scanner, row after row: row [i] holds [i² + j²] for
    [j] in [range(n)]. *)
Definition grid_row (n i : Z) : list (pynum T) :=
  (fun j => PyInt (i * i + j * j)%Z) <$> py_range n.

Definition grid (n : Z) : list (pynum T) := py_range n ≫= grid_row n.

(** Row [i] of the slow scanner: the same numbers, as floats. *)
Definition slow_row (n i : Z) : list (pynum T) :=
  (fun j => PyFloat (fadd (fsquare (of_int i)) (fsquare (of_int j)))) <$> py_range n.



(** The distance that the slow planner compares with its tolerance. *)
Definition slow_dist_to_goal (current goal : vec3 T) : T :=
  fsqrt (fadd (fadd (fsquare (fsub (vx goal) (vx current)))
                    (fsquare (fsub (vy goal) (vy current))))
              (fsquare (fsub (vz goal) (vz current)))).

Context `{Finiteness T}.

(** Whether the square of a coordinate difference of two points overflows,
    and whether that of some segment of a path does. *)
Definition segment_overflows (a b : vec3 T) : bool :=
  square_overflows (fsub (vx b) (vx a))
  || square_overflows (fsub (vy b) (vy a))
  || square_overflows (fsub (vz b) (vz a)).


(** A point whose three coordinates are finite. *)
Definition finite_point (p : vec3 T) : bool :=
  ffinite (vx p) && ffinite (vy p) && ffinite (vz p).

End Specification.

(** The sum of a list of reals. *)
Definition Rsum (l : list R) : R := foldr Rplus 0%R l.

(** The number a reading stands for. *)
Definition pynum_value (x : pynum R) : R :=
  match x with
  | PyInt z => IZR z
  | PyFloat r => r
  end.

(** The Euclidean distance of two points, as the specification writes it:
    the square root of [dx² + dy² + dz²]. *)
Definition euclidean_distance (leg target : vec3 R) : R :=
  sqrt ((vx target - vx leg) * (vx target - vx leg)
        + (vy target - vy leg) * (vy target - vy leg)
        + (vz target - vz leg) * (vz target - vz leg))%R.

(** ** Loops and sequences *)

Section Sequences.
Context {A : Type}.
Implicit Types (l pre : list A) (x z : A).

Lemma py_range_length (n : Z) : length (py_range n) = Z.to_nat n.
Proof. apply length_seqZ. Qed.

Lemma py_range_nonpos (n : Z) : (n <= 0)%Z -> py_range n = [].
Proof.
  intros Hn. apply length_zero_iff_nil. rewrite py_range_length. lia.
Qed.

Lemma py_range_lookup (n i : Z) :
  (0 <= i < n)%Z -> py_range n !! Z.to_nat i = Some i.
Proof.
  intros Hi. unfold py_range. rewrite lookup_seqZ_lt by lia. f_equal. lia.
Qed.

Lemma py_setitem_next pre z l x :
  py_setitem (pre ++ z :: l) (length pre) x = Return ((pre ++ [x]) ++ l).
Proof.
  unfold py_setitem.
  assert (Hlt : (length pre <? length (pre ++ z :: l))%nat = true).
  { apply Nat.ltb_lt. rewrite length_app. simpl. lia. }
  rewrite Hlt. f_equal.
  rewrite <- (Nat.add_0_r (length pre)) at 1.
  rewrite insert_app_r. simpl. now rewrite <- app_assoc.
Qed.

Lemma py_getitem_nonneg l (i : nat) x :
  l !! i = Some x -> py_getitem l (Z.of_nat i) = Return x.
Proof.
  intros Hx. pose proof (lookup_lt_Some _ _ _ Hx) as Hlt.
  unfold py_getitem.
  assert (H0 : (Z.of_nat i <? 0)%Z = false) by (apply Z.ltb_ge; lia).
  assert (H1 : (Z.of_nat (length l) <=? Z.of_nat i)%Z = false) by (apply Z.leb_gt; lia).
  cbv zeta. rewrite !H0, H1. simpl. now rewrite Nat2Z.id, Hx.
Qed.

End Sequences.

(** ** Finite floats and the range check of [**] *)

Section Binary64.

(** A finite float is a zero or a finite number of the format. *)
Lemma is_finite_shape (x : float) :
  PrimFloat.is_finite x = true ->
  (exists s, Prim2SF x = S754_zero s) \/ (exists s m e, Prim2SF x = S754_finite s m e).
Proof.
  unfold PrimFloat.is_finite, is_nan, is_infinity.
  rewrite !FloatAxioms.eqb_spec, abs_spec.
  destruct (Prim2SF x) as [s|s| |s m e] eqn:Hx.
  - intros _. left. now exists s.
  - cbn. rewrite orb_true_r. discriminate.
  - cbn. discriminate.
  - intros _. right. now exists s, m, e.
Qed.

(** In binary64 a finite float minus itself is [0.0]. *)
Lemma float_sub_diag (x : float) :
  PrimFloat.is_finite x = true -> PrimFloat.sub x x = PrimFloat.zero.
Proof.
  intros Hx.
  rewrite <- (SF2Prim_Prim2SF (PrimFloat.sub x x)), sub_spec.
  destruct (is_finite_shape x Hx) as [[s ->]|(s & m & e & ->)].
  - destruct s; reflexivity.
  - unfold SF64sub, SFsub. cbv zeta. rewrite Z.sub_diag. reflexivity.
Qed.

End Binary64.

(** The real number a given float is, from its sign, mantissa and exponent. *)
Ltac float_value x :=
  let v := eval vm_compute in (Prim2SF x) in
  change (real_of_float x) with
    (match v with
     | S754_finite s m e => ((if s then -1 else 1) * IZR (Zpos m) * powerRZ 2 e)%R
     | _ => 0%R
     end).

(** The number a float is: a half, ten, minus three quarters. *)
Lemma real_of_float_examples :
  real_of_float 0.5 = (1 / 2)%R
  /\ real_of_float 10 = 10%R
  /\ real_of_float (-0.75) = (- (3 / 4))%R
  /\ real_of_float 0 = 0%R
  /\ real_of_float infinity = 0%R.
Proof.
  float_value 0.5%float. float_value 10%float. float_value (-0.75)%float.
  float_value 0%float. float_value infinity.
  cbv beta iota. unfold powerRZ.
  change (Pos.to_nat 53) with 53%nat. change (Pos.to_nat 49) with 49%nat.
  repeat match goal with |- _ /\ _ => split end; try reflexivity; field_simplify; lra.
Qed.

Section PowerCheck.
Context {T : Type} `{Scalar T} `{Finiteness T}.

Lemma float_pow2_return (x : T) :
  square_overflows x = false -> float_pow2 x = Return (fsquare x).
Proof. intros Hx. unfold float_pow2. now rewrite Hx. Qed.

Lemma float_pow2_raise (x : T) :
  square_overflows x = true -> float_pow2 x = Raise OverflowError.
Proof. intros Hx. unfold float_pow2. now rewrite Hx. Qed.

(** The three squares of a call, taken in order. *)
Lemma squares_return (a b : vec3 T) {A} (k : T -> T -> T -> result A) :
  segment_overflows a b = false ->
  (sx ← float_pow2 (fsub (vx b) (vx a));
   sy ← float_pow2 (fsub (vy b) (vy a));
   sz ← float_pow2 (fsub (vz b) (vz a));
   k sx sy sz)
  = k (fsquare (fsub (vx b) (vx a))) (fsquare (fsub (vy b) (vy a)))
      (fsquare (fsub (vz b) (vz a))).
Proof.
  unfold segment_overflows. intros Hab.
  apply orb_false_elim in Hab as [Hab Hz]. apply orb_false_elim in Hab as [Hx Hy].
  now rewrite !float_pow2_return by assumption.
Qed.

Lemma squares_raise (a b : vec3 T) {A} (k : T -> T -> T -> result A) :
  segment_overflows a b = true ->
  (sx ← float_pow2 (fsub (vx b) (vx a));
   sy ← float_pow2 (fsub (vy b) (vy a));
   sz ← float_pow2 (fsub (vz b) (vz a));
   k sx sy sz)
  = Raise OverflowError.
Proof.
  unfold segment_overflows, float_pow2. intros Hab.
  destruct (square_overflows (fsub (vx b) (vx a))); [reflexivity|].
  destruct (square_overflows (fsub (vy b) (vy a))); [reflexivity|].
  destruct (square_overflows (fsub (vz b) (vz a))); [reflexivity|].
  discriminate.
Qed.

End PowerCheck.

(** Over the reals no square overflows. *)
Lemma segment_overflows_reals (a b : vec3 R) : segment_overflows a b = false.
Proof. reflexivity. Qed.



(** ** The field scanner *)

Section Scanner.
Context {T : Type} `{Scalar T}.
Import MechanicalDogOptimized.


(** One row: the next [length js] blank slots receive the row's values. *)
Lemma scan_row_body (js : list Z) (i_squared : Z) :
  forall (pre : list (pynum T)) (k : nat),
  (length js <= k)%nat ->
  for_each js
    (fun j '(sensor_readings, idx) =>
       r ← py_setitem sensor_readings idx (PyInt (i_squared + j * j)%Z);
       Return (r, S idx))
    (pre ++ replicate k blank, length pre)
  = Return (pre ++ ((fun j => PyInt (i_squared + j * j)%Z) <$> js)
                ++ replicate (k - length js) blank,
            (length pre + length js)%nat).
Proof.
  induction js as [|j js IH]; intros pre k Hk; simpl.
  - now rewrite Nat.sub_0_r, Nat.add_0_r.
  - destruct k as [|k]; [simpl in Hk; lia|].
    simpl replicate. rewrite py_setitem_next. simpl.
    replace (S (length pre)) with (length (pre ++ [PyInt (i_squared + j * j)%Z]))
      by (rewrite length_app; simpl; lia).
    rewrite IH by (simpl in Hk; lia).
    rewrite length_app, <- app_assoc. simpl. do 2 f_equal. lia.
Qed.

Lemma scan_row_fills (n i : Z) (pre : list (pynum T)) (k : nat) :
  (Z.to_nat n <= k)%nat ->
  scan_row n (i * i) (pre ++ replicate k blank, length pre)
  = Return (pre ++ grid_row n i ++ replicate (k - Z.to_nat n) blank,
            (length pre + Z.to_nat n)%nat).
Proof.
  intros Hk. unfold scan_row, grid_row.
  rewrite scan_row_body by (rewrite py_range_length; lia).
  now rewrite py_range_length.
Qed.

Lemma grid_row_length (n i : Z) : length (grid_row (T:=T) n i) = Z.to_nat n.
Proof. unfold grid_row. now rewrite length_fmap, py_range_length. Qed.

Lemma scan_rows_fill (n : Z) (rows : list Z) :
  forall (pre : list (pynum T)) (k : nat),
  (length rows * Z.to_nat n <= k)%nat ->
  for_each rows (fun i st => scan_row n (i * i) st) (pre ++ replicate k blank, length pre)
  = Return (pre ++ (rows ≫= grid_row n) ++ replicate (k - length rows * Z.to_nat n) blank,
            (length pre + length rows * Z.to_nat n)%nat).
Proof.
  induction rows as [|i rows IH]; intros pre k Hk; simpl.
  - now rewrite Nat.sub_0_r, Nat.add_0_r.
  - simpl in Hk.
    assert (Hrow : (Z.to_nat n <= k)%nat) by nia.
    assert (Hrest : (length rows * Z.to_nat n <= k - Z.to_nat n)%nat) by nia.
    rewrite scan_row_fills by exact Hrow. simpl.
    rewrite app_assoc.
    replace (length pre + Z.to_nat n)%nat with (length (pre ++ grid_row n i))
      by (rewrite length_app, grid_row_length; reflexivity).
    rewrite IH by exact Hrest.
    rewrite length_app, grid_row_length, <- !app_assoc.
    now rewrite Nat.sub_add_distr, Nat.add_assoc.
Qed.


(** The loops of [scan_environment] never raise: they write the grid into
    the first slots and leave the other slots as allocated. *)
Lemma scan_loops (n : Z) (k : nat) :
  (Z.to_nat n * Z.to_nat n <= k)%nat ->
  for_each (py_range n) (fun i st => scan_row n (i * i) st)
    (replicate k blank, 0%nat)
  = Return (grid n ++ replicate (k - Z.to_nat n * Z.to_nat n) blank,
            (Z.to_nat n * Z.to_nat n)%nat).
Proof.
  intros Hk.
  pose proof (scan_rows_fill n (py_range n) [] k) as Hrows.
  rewrite py_range_length in Hrows. simpl in Hrows. now apply Hrows.
Qed.

Lemma grid_nonneg_length (n : Z) : length (grid (T:=T) n) = (Z.to_nat n * Z.to_nat n)%nat.
Proof.
  unfold grid. rewrite <- (py_range_length n) at 1.
  induction (py_range n) as [|i rows IH]; [reflexivity|].
  rewrite bind_cons, length_app, grid_row_length, IH. reflexivity.
Qed.

Lemma bind_rows_lookup {A B} (f : A -> list B) (m : nat) (rows : list A) :
  (forall a, length (f a) = m) ->
  forall (r c : nat) (a : A),
  rows !! r = Some a -> (c < m)%nat ->
  (rows ≫= f) !! (r * m + c)%nat = f a !! c.
Proof.
  intros Hlen. induction rows as [|a0 rows IH]; intros r c a Hr Hc; [easy|].
  rewrite bind_cons. destruct r as [|r]; simpl in Hr.
  - injection Hr as ->. simpl. rewrite lookup_app_l by (rewrite Hlen; lia). reflexivity.
  - rewrite lookup_app_r by (rewrite Hlen; simpl; lia).
    rewrite Hlen. replace (S r * m + c - m)%nat with (r * m + c)%nat by (simpl; lia).
    now apply IH.
Qed.

Lemma grid_lookup (n i j : Z) :
  (0 <= i < n)%Z -> (0 <= j < n)%Z ->
  grid (T:=T) n !! Z.to_nat (i * n + j) = Some (PyInt (i * i + j * j)%Z).
Proof.
  intros Hi Hj. unfold grid.
  replace (Z.to_nat (i * n + j)) with (Z.to_nat i * Z.to_nat n + Z.to_nat j)%nat by nia.
  rewrite (bind_rows_lookup (grid_row n) (Z.to_nat n) (py_range n)
             (grid_row_length n) _ _ i).
  - unfold grid_row. rewrite list_lookup_fmap, py_range_lookup by lia. reflexivity.
  - now apply py_range_lookup.
  - lia.
Qed.

End Scanner.

Section ScannerClaims.
Context {T : Type} `{Scalar T}.
Import MechanicalDogOptimized.

Lemma set_sensor_data_twice (s1 s2 : list (pynum T)) (self : dog T) :
  set_sensor_data s2 (set_sensor_data s1 self) = set_sensor_data s2 self.
Proof. reflexivity. Qed.

Lemma scan_environment_nonneg (n : Z) (self : dog T) :
  (0 <= n)%Z ->
  scan_environment n self = (Return (grid n), set_sensor_data (grid n) self).
Proof.
  intros Hn. unfold scan_environment, py_repeat.
  rewrite scan_loops by nia.
  replace (Z.to_nat (n * n) - Z.to_nat n * Z.to_nat n)%nat with 0%nat by nia.
  simpl. now rewrite app_nil_r.
Qed.

(** C10.  For a negative [num_samples = n], the optimized
    [scan_environment] raises nothing: it returns the [n * n] slots it
    allocated, every one still the float [0.0], and stores that list as
    [sensor_data]; so the list is not empty and its first entry is not the
    int [0 * 0 + 0 * 0]. *)
Theorem scan_environment_negative (n : Z) (self : dog T) :
  (n < 0)%Z ->
  let zeros := replicate (Z.to_nat (n * n)) (PyFloat (T:=T) fzero) in
  scan_environment n self = (Return zeros, set_sensor_data zeros self)
  /\ Z.of_nat (length zeros) = (n * n)%Z
  /\ (forall k x, zeros !! k = Some x -> x = PyFloat fzero)
  /\ zeros <> []
  /\ sensor_data (snd (scan_environment n self)) = zeros.
Proof.
  intros Hn zeros.
  assert (Hscan : scan_environment n self = (Return zeros, set_sensor_data zeros self)).
  { unfold scan_environment, py_repeat. now rewrite (py_range_nonpos n) by lia. }
  rewrite Hscan. repeat split.
  - unfold zeros. rewrite length_replicate. nia.
  - intros k x Hk. unfold zeros in Hk. apply lookup_replicate in Hk. tauto.
  - unfold zeros. intros Hnil. apply (f_equal length) in Hnil.
    rewrite length_replicate in Hnil. simpl in Hnil. nia.
Qed.

End ScannerClaims.

Lemma scan_environment_negative_witness :
  (-2 < 0)%Z /\
  MechanicalDogOptimized.scan_environment (-2) (MechanicalDogOptimized.init "Spot" 1000)
  = (Return [PyFloat 0%float; PyFloat 0%float; PyFloat 0%float; PyFloat 0%float],
     MechanicalDogOptimized.set_sensor_data
       [PyFloat 0%float; PyFloat 0%float; PyFloat 0%float; PyFloat 0%float]
       (MechanicalDogOptimized.init "Spot" 1000)).
Proof.
  split; [lia|].
  refine (proj1 (scan_environment_negative (T:=float) (-2)
                   (MechanicalDogOptimized.init "Spot" 1000) _)).
  lia.
Defined.

(** ** The motion integrator and its history *)

Section Deque.
Context {A : Type}.
Implicit Types (d : list A) (x : A).

Lemma deque_append_drop (m : nat) x d :
  (length d <= m)%nat ->
  deque_append m x d = drop (S (length d) - m) (d ++ [x]).
Proof.
  intros Hd. unfold deque_append. rewrite length_app. simpl.
  destruct (Nat.ltb_spec m (length d + 1)) as [Hfull|Hroom].
  - replace (S (length d) - m)%nat with 1%nat by lia.
    now destruct (d ++ [x]).
  - now replace (S (length d) - m)%nat with 0%nat by lia.
Qed.

Lemma deque_append_length (m : nat) x d :
  (length d <= m)%nat ->
  length (deque_append m x d) = Nat.min (S (length d)) m.
Proof.
  intros Hd. rewrite deque_append_drop by assumption.
  rewrite length_drop, length_app. change (length [x]) with 1%nat. lia.
Qed.

End Deque.

Section History.
Context {T : Type} `{Scalar T}.
Import MechanicalDogOptimized.

Lemma update_position_state (delta_time : T) (self : dog T) :
  update_position delta_time self
  = (Return tt,
     set_movement_history
       (deque_append (maxlen self)
          (moved (position self) (velocity self) delta_time)
          (movement_history self))
       (set_position (moved (position self) (velocity self) delta_time) self)).
Proof. reflexivity. Qed.

Lemma run_updates_cons (dt : T) (dts : list T) (self : dog T) :
  run_updates (dt :: dts) self = run_updates dts (snd (update_position dt self)).
Proof. reflexivity. Qed.

Lemma run_updates_history (dts : list T) :
  forall self : dog T,
  history_bounded self ->
  movement_history (run_updates dts self)
  = drop (length (movement_history self) + length dts - maxlen self)
         (movement_history self ++ snapshots (position self) (velocity self) dts)
  /\ maxlen (run_updates dts self) = maxlen self
  /\ velocity (run_updates dts self) = velocity self.
Proof.
  unfold history_bounded.
  induction dts as [|dt dts IH]; intros self Hb.
  - cbn [run_updates foldl snapshots length]. rewrite app_nil_r, Nat.add_0_r.
    now replace (length (movement_history self) - maxlen self)%nat with 0%nat by lia.
  - rewrite run_updates_cons, update_position_state. cbn [snd].
    set (p' := moved (position self) (velocity self) dt).
    set (h := movement_history self) in *.
    set (self1 := set_movement_history _ _).
    assert (Hh1 : movement_history self1 = deque_append (maxlen self) p' h) by reflexivity.
    assert (Hm1 : maxlen self1 = maxlen self) by reflexivity.
    assert (Hv1 : velocity self1 = velocity self) by reflexivity.
    assert (Hp1 : position self1 = p') by reflexivity.
    destruct (IH self1) as (Hh & Hm & Hv).
    { rewrite Hh1, Hm1, deque_append_length by assumption. lia. }
    rewrite Hh, Hm, Hv, Hh1, Hm1, Hv1, Hp1. repeat split.
    rewrite deque_append_length, deque_append_drop by assumption.
    cbn [snapshots length]. fold p'.
    set (rest := snapshots p' (velocity self) dts).
    replace (h ++ p' :: rest) with ((h ++ [p']) ++ rest)
      by now rewrite <- app_assoc.
    rewrite <- (drop_app_le (h ++ [p']) rest)
      by (rewrite length_app; change (length [p']) with 1%nat; lia).
    rewrite drop_drop. f_equal. lia.
Qed.

(** What a fresh agent records, for any velocity set on it. *)
Lemma fresh_history (name : string) (m : nat) (v : vec3 T) (dts : list T) :
  movement_history (run_updates dts (set_velocity v (init name m)))
  = drop (length dts - m) (snapshots origin v dts).
Proof.
  destruct (run_updates_history dts (set_velocity v (init name m))) as (Hh & _).
  { unfold history_bounded. simpl. lia. }
  exact Hh.
Qed.

Lemma snapshots_length (p v : vec3 T) (dts : list T) :
  length (snapshots p v dts) = length dts.
Proof.
  revert p. induction dts as [|dt dts IH]; intros p; simpl; [reflexivity|].
  now rewrite IH.
Qed.

Lemma perform_keeps_bound (op : operation) (self : dog T) :
  history_bounded self -> history_bounded (perform op self).
Proof.
  unfold history_bounded. intros Hb.
  destruct op as [dt|i target|n| | |]; cbn [perform]; try assumption.
  - rewrite update_position_state. cbn [snd].
    change (length (deque_append (maxlen self)
              (moved (position self) (velocity self) dt) (movement_history self))
            <= maxlen self)%nat.
    rewrite deque_append_length by assumption. lia.
  - unfold scan_environment.
    destruct (for_each _ _ _) as [e|[readings idx]]; assumption.
Qed.


End History.


Section Motion.
Open Scope R_scope.


End Motion.

(** ** The path planner *)

Section PlannerObstacles.
Context {T : Type} `{Scalar T}.

(** C8.  [plan_path] returns the same path whatever it is handed as
    [obstacles], of whatever kind: the argument is never consulted.  In
    both classes. *)
Theorem plan_path_ignores_obstacles :
  forall (O1 O2 : Type) (start goal : vec3 T) (o1 : O1) (o2 : O2),
    MechanicalDogOptimized.plan_path start goal o1
    = MechanicalDogOptimized.plan_path start goal o2
    /\ MechanicalDog.plan_path start goal o1 = MechanicalDog.plan_path start goal o2.
Proof.
  intros. split.
  - unfold MechanicalDogOptimized.plan_path. reflexivity.
  - unfold MechanicalDog.plan_path. reflexivity.
Qed.

End PlannerObstacles.

(** ** The limb distance estimator *)

Section Indexing.
Context {A : Type}.
Implicit Types (l : list A).

Lemma py_getitem_negative l (i : Z) (x : A) :
  (- Z.of_nat (length l) <= i < 0)%Z ->
  l !! Z.to_nat (i + Z.of_nat (length l)) = Some x ->
  py_getitem l i = Return x.
Proof.
  intros Hi Hx. unfold py_getitem.
  assert (H0 : (i <? 0)%Z = true) by (apply Z.ltb_lt; lia).
  assert (H1 : (i + Z.of_nat (length l) <? 0)%Z = false) by (apply Z.ltb_ge; lia).
  assert (H2 : (Z.of_nat (length l) <=? i + Z.of_nat (length l))%Z = false)
    by (apply Z.leb_gt; lia).
  cbv zeta. rewrite H0, H1, H2. simpl. now rewrite Hx.
Qed.

Lemma py_getitem_out_of_range l (i : Z) :
  (i < - Z.of_nat (length l) \/ Z.of_nat (length l) <= i)%Z ->
  py_getitem l i = Raise IndexError.
Proof.
  intros Hi. unfold py_getitem. cbv zeta.
  destruct (Z.ltb_spec i 0) as [Hneg|Hpos].
  - assert (H1 : (i + Z.of_nat (length l) <? 0)%Z = true) by (apply Z.ltb_lt; lia).
    now rewrite H1.
  - assert (H2 : (Z.of_nat (length l) <=? i)%Z = true) by (apply Z.leb_le; lia).
    rewrite H2. now rewrite orb_true_r.
Qed.

(** The entry that [l[i]] reads, when there is one. *)
Lemma py_getitem_in_range l (i : Z) :
  (- Z.of_nat (length l) <= i < Z.of_nat (length l))%Z ->
  exists x, l !! Z.to_nat (if (i <? 0)%Z then i + Z.of_nat (length l) else i)%Z = Some x
            /\ py_getitem l i = Return x.
Proof.
  intros Hi. destruct (Z.ltb_spec i 0) as [Hneg|Hpos].
  - destruct (lookup_lt_is_Some_2 l (Z.to_nat (i + Z.of_nat (length l)))) as [x Hx]; [lia|].
    exists x. split; [exact Hx|]. apply py_getitem_negative; [lia|exact Hx].
  - destruct (lookup_lt_is_Some_2 l (Z.to_nat i)) as [x Hx]; [lia|].
    exists x. split; [exact Hx|].
    rewrite <- (Z2Nat.id i) at 1 by lia. now apply py_getitem_nonneg.
Qed.

End Indexing.

Section LimbDistance.
Context {T : Type} `{Scalar T}.




Context `{Finiteness T}.




End LimbDistance.

Section LimbDistanceClaim.


End LimbDistanceClaim.



(** In binary64 the target (1e200, 0, 0): the optimized class returns [inf]
    and a call of the slow class raises [OverflowError]. *)
Lemma leg_kinematics_overflow :
  finite_point (Vec3 0x1.4e718d7d7625ap+664 0 0)%float = true
  /\ fst (MechanicalDogOptimized.calculate_leg_kinematics 0
            (Vec3 0x1.4e718d7d7625ap+664 0 0)%float
            (MechanicalDogOptimized.init "Test" 1000))
     = Return infinity
  /\ fst (MechanicalDog.call_calculate_leg_kinematics 0
            (Vec3 0x1.4e718d7d7625ap+664 0 0)%float (MechanicalDog.init "Test"))
     = Raise OverflowError.
Proof. repeat split; vm_compute; reflexivity. Qed.

(** ** The obstacle classifier *)

Section Classifier.
Open Scope Z_scope.

Lemma find_obstacles_fold (field : list Z) :
  forall (acc : gset Z) (x : Z),
  x ∈ foldl (fun (obstacles : gset Z) reading =>
               if 1000 <? reading then {[reading]} ∪ obstacles else obstacles)
            acc field
  <-> x ∈ acc \/ (x ∈ field /\ 1000 < x).
Proof.
  induction field as [|r field IH]; intros acc x; simpl.
  - rewrite elem_of_nil. tauto.
  - rewrite IH, elem_of_cons. destruct (Z.ltb_spec 1000 r) as [Hr|Hr].
    + rewrite elem_of_union, elem_of_singleton. intuition (subst; auto).
    + intuition (subst; auto; lia).
Qed.

Lemma find_obstacles_elem (field : list Z) (x : Z) :
  x ∈ MechanicalDogOptimized.find_obstacles field <-> x ∈ field /\ 1000 < x.
Proof.
  unfold MechanicalDogOptimized.find_obstacles. rewrite find_obstacles_fold.
  rewrite elem_of_empty. tauto.
Qed.

Lemma find_obstacles_slow_fold (field : list Z) :
  forall acc : list Z,
  NoDup acc ->
  let res := foldl (fun obstacles reading =>
                      if 1000 <? reading then
                        if bool_decide (reading ∈ obstacles) then obstacles
                        else obstacles ++ [reading]
                      else obstacles)
                   acc field in
  NoDup res /\ forall x, x ∈ res <-> x ∈ acc \/ (x ∈ field /\ 1000 < x).
Proof.
  induction field as [|r field IH]; intros acc Hnd; simpl.
  - split; [assumption|]. intros x. rewrite elem_of_nil. tauto.
  - destruct (Z.ltb_spec 1000 r) as [Hr|Hr].
    + destruct (bool_decide_reflect (r ∈ acc)) as [Hin|Hout].
      * destruct (IH acc Hnd) as [Hnd' Hel]. split; [assumption|].
        intros x. rewrite Hel, elem_of_cons. intuition (subst; auto).
      * destruct (IH (acc ++ [r])) as [Hnd' Hel].
        { apply NoDup_app. split; [assumption|]. split; [|apply NoDup_singleton].
          intros y Hy Hy'. apply list_elem_of_singleton in Hy'. now subst. }
        split; [assumption|].
        intros x. rewrite Hel, elem_of_app, list_elem_of_singleton, elem_of_cons.
        intuition (subst; auto).
    + destruct (IH acc Hnd) as [Hnd' Hel]. split; [assumption|].
      intros x. rewrite Hel, elem_of_cons. intuition (subst; auto; lia).
Qed.

Lemma find_obstacles_slow_elem (field : list Z) :
  NoDup (MechanicalDog.find_obstacles field)
  /\ forall x, x ∈ MechanicalDog.find_obstacles field <-> x ∈ field /\ 1000 < x.
Proof.
  destruct (find_obstacles_slow_fold field [] (NoDup_nil_2)) as [Hnd Hel].
  split; [exact Hnd|]. intros x. unfold MechanicalDog.find_obstacles.
  rewrite Hel, elem_of_nil. tauto.
Qed.

(** The obstacles of the two classes are the same set. *)
Lemma find_obstacles_variants_agree (field : list Z) :
  list_to_set (MechanicalDog.find_obstacles field)
  = MechanicalDogOptimized.find_obstacles field.
Proof.
  apply set_eq. intros x. rewrite elem_of_list_to_set, find_obstacles_elem.
  apply find_obstacles_slow_elem.
Qed.

(** C4, as the code has it.  [find_obstacles] takes the readings and
    nothing else; the threshold is the constant 1000 of its body, and a call
    that passes a threshold, by name or by position, raises [TypeError].  It
    returns the set of the readings strictly greater than 1000: a reading
    equal to 1000 is left out, a reading met twice is held once, no reading
    gives the empty set, [[500, 1200, 800, 1500, 900, 2000]] gives
    [{1200, 1500, 2000}] and [[1500, 1500]] gives [{1500}].  The slow class
    returns a list without repetition holding the same values. *)
Theorem find_obstacles_classifies :
  (forall (field : list Z) (x : Z),
     x ∈ MechanicalDogOptimized.find_obstacles field <-> x ∈ field /\ 1000 < x)
  /\ (forall field : list Z,
        MechanicalDogOptimized.call_find_obstacles [MechanicalDogOptimized.ArgReadings field] []
        = Return (MechanicalDogOptimized.find_obstacles field)
        /\ MechanicalDogOptimized.call_find_obstacles []
             [("sensor_data"%string, MechanicalDogOptimized.ArgReadings field)]
           = Return (MechanicalDogOptimized.find_obstacles field))
  /\ (forall (field : list Z) (threshold : Z),
        MechanicalDogOptimized.call_find_obstacles
          [MechanicalDogOptimized.ArgReadings field]
          [("threshold"%string, MechanicalDogOptimized.ArgInt threshold)]
        = Raise TypeError
        /\ MechanicalDogOptimized.call_find_obstacles
             [MechanicalDogOptimized.ArgReadings field;
              MechanicalDogOptimized.ArgInt threshold] []
           = Raise TypeError)
  /\ (forall field : list Z, 1000 ∉ MechanicalDogOptimized.find_obstacles field)
  /\ MechanicalDogOptimized.find_obstacles [] = ∅
  /\ MechanicalDogOptimized.find_obstacles [500; 1200; 800; 1500; 900; 2000]
     = {[1200; 1500; 2000]}
  /\ MechanicalDogOptimized.find_obstacles [1500; 1500] = {[1500]}
  /\ (forall field : list Z,
        NoDup (MechanicalDog.find_obstacles field)
        /\ list_to_set (MechanicalDog.find_obstacles field)
           = MechanicalDogOptimized.find_obstacles field).
Proof.
  split; [exact find_obstacles_elem|].
  split; [intros field; split; reflexivity|].
  split; [intros field threshold; split; reflexivity|].
  split; [intros field; rewrite find_obstacles_elem; lia|].
  split; [reflexivity|].
  split.
  { apply set_eq. intros x. rewrite find_obstacles_elem.
    rewrite !elem_of_union, !elem_of_singleton, !elem_of_cons, elem_of_nil. lia. }
  split.
  { apply set_eq. intros x. rewrite find_obstacles_elem.
    rewrite !elem_of_singleton, !elem_of_cons, elem_of_nil. lia. }
  intros field. split; [apply find_obstacles_slow_elem|apply find_obstacles_variants_agree].
Qed.

(** C4, as claimed, fails: the threshold is not a parameter.  The call of
    the specification's example, with [threshold=1000], raises [TypeError]
    instead of returning [{1200, 1500, 2000}], by name and by position
    alike; and no other threshold can be asked for: the only call that
    succeeds on these readings reports 1200, which a threshold of 1400
    would exclude. *)
Lemma find_obstacles_threshold_rejected :
  MechanicalDogOptimized.call_find_obstacles
    [MechanicalDogOptimized.ArgReadings [500; 1200; 800; 1500; 900; 2000]]
    [("threshold"%string, MechanicalDogOptimized.ArgInt 1000)]
  = Raise TypeError
  /\ MechanicalDogOptimized.call_find_obstacles
       [MechanicalDogOptimized.ArgReadings [500; 1200; 800; 1500; 900; 2000];
        MechanicalDogOptimized.ArgInt 1000] []
     = Raise TypeError
  /\ 1200 ∈ MechanicalDogOptimized.find_obstacles [500; 1200; 800; 1500; 900; 2000]
  /\ ~ 1400 < 1200.
Proof.
  split; [reflexivity|]. split; [reflexivity|]. split; [|lia].
  apply find_obstacles_elem. split; [|lia].
  rewrite !elem_of_cons. tauto.
Qed.

End Classifier.

(** ** The energy estimator *)

Section EnergyLoop.
Context {T : Type} `{Scalar T}.
Import MechanicalDogOptimized.

Lemma energy_step_at (pre rest : list (vec3 T)) (a b : vec3 T) (t : T)
    (log : list (Z * T)) :
  energy_step (pre ++ a :: b :: rest) (Z.of_nat (length pre)) (t, log)
  = Return (fadd t (fmul (distance a b) (of_int 10)),
            log ++ [(Z.of_nat (length pre), fmul (distance a b) (of_int 10))]).
Proof.
  unfold energy_step.
  rewrite (py_getitem_nonneg (pre ++ a :: b :: rest) (length pre) a)
    by (rewrite lookup_app_r, Nat.sub_diag by lia; reflexivity).
  replace (Z.of_nat (length pre) + 1)%Z with (Z.of_nat (S (length pre))) by lia.
  rewrite (py_getitem_nonneg (pre ++ a :: b :: rest) (S (length pre)) b).
  - reflexivity.
  - rewrite lookup_app_r by lia.
    now replace (S (length pre) - length pre)%nat with 1%nat by lia.
Qed.

(** The loop of [calculate_energy_consumption] over the segments that
    start in [rest], the path being [pre ++ rest]. *)
Lemma energy_loop (rest : list (vec3 T)) :
  forall (pre : list (vec3 T)) (t : T) (log : list (Z * T)),
  for_each (seqZ (Z.of_nat (length pre)) (Z.of_nat (length rest) - 1))
    (energy_step (pre ++ rest)) (t, log)
  = Return (foldl fadd t (segment_energies rest),
            log ++ numbered (Z.of_nat (length pre)) (segment_energies rest)).
Proof.
  induction rest as [|a rest IH]; intros pre t log.
  - simpl. now rewrite app_nil_r.
  - destruct rest as [|b rest].
    + simpl. now rewrite app_nil_r.
    + rewrite seqZ_cons by (simpl length; lia).
      cbn [for_each]. rewrite energy_step_at. cbn [mbind result_bind].
      specialize (IH (pre ++ [a])
                     (fadd t (fmul (distance a b) (of_int 10)))
                     (log ++ [(Z.of_nat (length pre), fmul (distance a b) (of_int 10))])).
      rewrite <- app_assoc in IH. cbn [app] in IH.
      rewrite length_app in IH. change (length [a]) with 1%nat in IH.
      replace (Z.succ (Z.of_nat (length pre))) with (Z.of_nat (length pre + 1)) by lia.
      replace (Z.pred (Z.of_nat (length (a :: b :: rest)) - 1))
        with (Z.of_nat (length (b :: rest)) - 1)%Z by (simpl length; lia).
      rewrite IH. cbn [segment_energies foldl numbered].
      rewrite <- app_assoc. cbn [app].
      now replace (Z.of_nat (length pre) + 1)%Z with (Z.of_nat (length pre + 1)) by lia.
Qed.

Lemma energy_total (path : list (vec3 T)) :
  calculate_energy_consumption path
  = Return (foldl fadd fzero (segment_energies path),
            numbered 0 (segment_energies path)).
Proof.
  unfold calculate_energy_consumption, py_range.
  exact (energy_loop path [] fzero []).
Qed.

Lemma segment_energies_length (path : list (vec3 T)) :
  length (segment_energies path) = (length path - 1)%nat.
Proof.
  induction path as [|a [|b rest] IH]; [reflexivity..|].
  cbn [segment_energies length] in *. lia.
Qed.


Lemma numbered_length (k : Z) (es : list T) : length (numbered k es) = length es.
Proof. revert k. induction es as [|e es IH]; intros k; simpl; [|rewrite IH]; reflexivity. Qed.


End EnergyLoop.

Section EnergyReals.
Open Scope R_scope.

Lemma foldl_Rplus (l : list R) (t : R) : foldl Rplus t l = t + Rsum l.
Proof.
  revert t. induction l as [|x l IH]; intros t; simpl.
  - ring.
  - rewrite IH. unfold Rsum. simpl. ring.
Qed.

(** Over the reals the slow loop body computes what the optimized one does. *)
Lemma energy_step_variants_agree (path : list (vec3 R)) (i : Z) (st : R * list (Z * R)) :
  MechanicalDog.energy_step path i st = MechanicalDogOptimized.energy_step path i st.
Proof.
  unfold MechanicalDog.energy_step, MechanicalDogOptimized.energy_step.
  destruct st as [t log].
  destruct (py_getitem path i) as [e|current]; [reflexivity|].
  destruct (py_getitem path (i + 1)) as [e|next_pos]; [reflexivity|].
  cbn. now rewrite Rplus_0_l.
Qed.

Lemma for_each_ext {A S} (xs : list A) (f g : A -> S -> result S) (s : S) :
  (forall x s, f x s = g x s) -> for_each xs f s = for_each xs g s.
Proof.
  intros Hfg. revert s. induction xs as [|x xs IH]; intros s; [reflexivity|].
  cbn [for_each]. rewrite Hfg. destruct (g x s); [reflexivity|]. apply IH.
Qed.

Lemma energy_variants_agree (path : list (vec3 R)) :
  MechanicalDog.calculate_energy_consumption path
  = MechanicalDogOptimized.calculate_energy_consumption path.
Proof.
  unfold MechanicalDog.calculate_energy_consumption,
    MechanicalDogOptimized.calculate_energy_consumption.
  apply for_each_ext. apply energy_step_variants_agree.
Qed.

Lemma energy_total_reals (path : list (vec3 R)) :
  MechanicalDogOptimized.calculate_energy_consumption path
  = Return (Rsum (segment_energies path), numbered 0 (segment_energies path)).
Proof.
  rewrite energy_total. cbn [fadd fzero R_scalar].
  now rewrite foldl_Rplus, Rplus_0_l.
Qed.

End EnergyReals.

Section SlowEnergyLoop.
Context {T : Type} `{Scalar T}.






Context `{Finiteness T}.





End SlowEnergyLoop.

Section EnergyClaim.
Open Scope R_scope.




End EnergyClaim.



Section PlannerLoop.
Context {T : Type} `{Scalar T}.
Import MechanicalDogOptimized.

Lemma plan_loop_stop (k : nat) (goal : vec3 T) (s tol : T) (c : vec3 T)
    (path : list (vec3 T)) :
  fltb (dist_squared c goal) tol = true ->
  plan_loop (S k) goal s tol c path = path.
Proof. intros Hnear. cbn [plan_loop]. unfold dist_squared in Hnear. now rewrite Hnear. Qed.

Lemma plan_loop_go (k : nat) (goal : vec3 T) (s tol : T) (c : vec3 T)
    (path : list (vec3 T)) :
  fltb (dist_squared c goal) tol = false ->
  plan_loop (S k) goal s tol c path
  = plan_loop k goal s tol (step_toward goal s c) (path ++ [step_toward goal s c]).
Proof. intros Hfar. cbn [plan_loop]. unfold dist_squared in Hfar. now rewrite Hfar. Qed.

(** While the goal stays out of tolerance the loop appends a waypoint per
    iteration. *)
Lemma plan_loop_run (goal : vec3 T) (s tol : T) (n : nat) :
  forall (k : nat) (c : vec3 T) (path : list (vec3 T)),
  (forall j, (j < n)%nat -> fltb (dist_squared (reached j goal s c) goal) tol = false) ->
  plan_loop (n + k) goal s tol c path
  = plan_loop k goal s tol (reached n goal s c) (path ++ waypoints n goal s c).
Proof.
  induction n as [|n IH]; intros k c path Hfar.
  - cbn [reached waypoints Nat.add]. now rewrite app_nil_r.
  - change (S n + k)%nat with (S (n + k)).
    rewrite plan_loop_go by (apply (Hfar 0%nat); lia).
    rewrite IH by (intros j Hj; apply (Hfar (S j)); lia).
    cbn [reached waypoints]. now rewrite <- app_assoc.
Qed.

Lemma plan_loop_length (goal : vec3 T) (s tol : T) (k : nat) :
  forall (c : vec3 T) (path : list (vec3 T)),
  (length (plan_loop k goal s tol c path) <= length path + k)%nat.
Proof.
  induction k as [|k IH]; intros c path; cbn [plan_loop]; [lia|].
  destruct (fltb _ tol); [lia|].
  etransitivity; [apply IH|]. rewrite length_app. simpl. lia.
Qed.

Lemma slow_plan_loop_length (goal : vec3 T) (k : nat) :
  forall (c : vec3 T) (path : list (vec3 T)),
  (length (MechanicalDog.plan_loop k goal c path) <= length path + k)%nat.
Proof.
  induction k as [|k IH]; intros c path; cbn [MechanicalDog.plan_loop]; [lia|].
  destruct (fltb _ _); [lia|].
  etransitivity; [apply IH|]. rewrite length_app. simpl. lia.
Qed.

Lemma waypoints_length (goal : vec3 T) (s : T) (n : nat) :
  forall c, length (waypoints n goal s c) = n.
Proof. induction n as [|n IH]; intros c; simpl; [|rewrite IH]; reflexivity. Qed.

Lemma waypoints_last (goal : vec3 T) (s : T) (n : nat) :
  forall c, last (waypoints (S n) goal s c) = Some (reached (S n) goal s c).
Proof.
  induction n as [|n IH]; intros c; [reflexivity|].
  change (waypoints (S (S n)) goal s c)
    with (step_toward goal s c :: waypoints (S n) goal s (step_toward goal s c)).
  change (reached (S (S n)) goal s c) with (reached (S n) goal s (step_toward goal s c)).
  rewrite <- IH. reflexivity.
Qed.

End PlannerLoop.

Section PlannerReals.
Open Scope R_scope.

Lemma Rltb_true (x y : R) : x < y -> Rltb x y = true.
Proof. intros Hxy. unfold Rltb. now destruct (Rlt_dec x y). Qed.

Lemma Rltb_false (x y : R) : y <= x -> Rltb x y = false.
Proof. intros Hxy. unfold Rltb. destruct (Rlt_dec x y); [lra|reflexivity]. Qed.

Lemma dist_squared_nonneg (a b : vec3 R) : 0 <= dist_squared a b.
Proof.
  unfold dist_squared. cbn.
  pose proof (Rle_0_sqr (vx b - vx a)) as Hx.
  pose proof (Rle_0_sqr (vy b - vy a)) as Hy.
  pose proof (Rle_0_sqr (vz b - vz a)) as Hz.
  unfold Rsqr in *. lra.
Qed.

(** Each step shrinks the squared distance to the goal by 0.99². *)
Lemma dist_squared_step (goal c : vec3 R) :
  dist_squared (step_toward goal (1 / 100) c) goal
  = dist_squared c goal * (9801 / 10000).
Proof. unfold dist_squared, step_toward. cbn. field. Qed.

Lemma dist_squared_reached (goal : vec3 R) (n : nat) :
  forall c, dist_squared (reached n goal (1 / 100) c) goal
            = dist_squared c goal * (9801 / 10000) ^ n.
Proof.
  induction n as [|n IH]; intros c; cbn [reached pow]; [ring|].
  rewrite IH, dist_squared_step. ring.
Qed.

Lemma pow_ratio (a b : Z) (n : nat) :
  (IZR a / IZR b) ^ n = IZR (a ^ Z.of_nat n) / IZR (b ^ Z.of_nat n).
Proof.
  unfold Rdiv. rewrite Rpow_mult_distr, pow_inv, !pow_IZR. reflexivity.
Qed.

Lemma shrink_pow_antitone (m n : nat) :
  (m <= n)%nat -> (9801 / 10000) ^ n <= (9801 / 10000) ^ m.
Proof.
  induction 1 as [|n Hmn IH]; [lra|].
  cbn [pow]. assert (0 <= (9801 / 10000) ^ n) by (apply pow_le; lra). nra.
Qed.

(** After 492 steps from squared distance 200 the goal is still out of
    tolerance; after 493 it is within. *)
Lemma shrink_492_int : (10000 ^ 492 <=? 20000 * 9801 ^ 492)%Z = true.
Proof. vm_compute. reflexivity. Qed.

Lemma shrink_493_int : (20000 * 9801 ^ 493 <? 10000 ^ 493)%Z = true.
Proof. vm_compute. reflexivity. Qed.

Lemma shrink_492 : 1 / 100 <= 200 * (9801 / 10000) ^ 492.
Proof.
  rewrite pow_ratio. change (Z.of_nat 492) with 492%Z.
  assert (Hpos : 0 < IZR (10000 ^ 492)).
  { apply IZR_lt. apply Z.pow_pos_nonneg; lia. }
  assert (Hle : IZR (10000 ^ 492) <= 20000 * IZR (9801 ^ 492)).
  { rewrite <- mult_IZR. apply IZR_le. apply Z.leb_le. exact shrink_492_int. }
  generalize dependent (IZR (9801 ^ 492)). generalize dependent (IZR (10000 ^ 492)).
  intros y Hpos x Hle.
  apply Rmult_le_reg_r with (r := y); [exact Hpos|].
  replace (200 * (x / y) * y) with (200 * x) by (field; lra). lra.
Qed.

Lemma shrink_493 : 200 * (9801 / 10000) ^ 493 < 1 / 100.
Proof.
  rewrite pow_ratio. change (Z.of_nat 493) with 493%Z.
  assert (Hpos : 0 < IZR (10000 ^ 493)).
  { apply IZR_lt. apply Z.pow_pos_nonneg; lia. }
  assert (Hlt : 20000 * IZR (9801 ^ 493) < IZR (10000 ^ 493)).
  { rewrite <- mult_IZR. apply IZR_lt. apply Z.ltb_lt. exact shrink_493_int. }
  generalize dependent (IZR (9801 ^ 493)). generalize dependent (IZR (10000 ^ 493)).
  intros y Hpos x Hlt.
  apply Rmult_lt_reg_r with (r := y); [exact Hpos|].
  replace (200 * (x / y) * y) with (200 * x) by (field; lra). lra.
Qed.

Lemma Rltb_sqrt_tolerance (d : R) :
  0 <= d -> Rltb (sqrt d) (1 / 10) = Rltb d (1 / 10 * (1 / 10)).
Proof.
  intros Hd.
  assert (Htol : sqrt (1 / 10 * (1 / 10)) = 1 / 10) by (apply sqrt_square; lra).
  destruct (Rlt_dec d (1 / 10 * (1 / 10))) as [Hnear|Hfar].
  - rewrite (Rltb_true d) by assumption. apply Rltb_true.
    rewrite <- Htol. apply sqrt_lt_1_alt. lra.
  - rewrite (Rltb_false d) by lra. apply Rltb_false.
    rewrite <- Htol at 1. apply sqrt_le_1_alt. lra.
Qed.

(** Over the reals the slow loop, which compares the distance with 0.1,
    runs as the optimized loop, which compares its square with 0.1 * 0.1. *)
Lemma plan_loop_variants_agree (goal : vec3 R) (k : nat) :
  forall (c : vec3 R) (path : list (vec3 R)),
  MechanicalDog.plan_loop k goal c path
  = MechanicalDogOptimized.plan_loop k goal (1 / 100) (1 / 10 * (1 / 10)) c path.
Proof.
  induction k as [|k IH]; intros c path; [reflexivity|].
  cbn [MechanicalDog.plan_loop MechanicalDogOptimized.plan_loop].
  change (fltb (fsqrt (fadd (fadd (fsquare (fsub (vx goal) (vx c)))
                                  (fsquare (fsub (vy goal) (vy c))))
                            (fsquare (fsub (vz goal) (vz c)))))
               (literal 1 10))
    with (Rltb (sqrt (dist_squared c goal)) (1 / 10)).
  rewrite Rltb_sqrt_tolerance by apply dist_squared_nonneg.
  change (fltb (fadd (fadd (fmul (fsub (vx goal) (vx c)) (fsub (vx goal) (vx c)))
                           (fmul (fsub (vy goal) (vy c)) (fsub (vy goal) (vy c))))
                     (fmul (fsub (vz goal) (vz c)) (fsub (vz goal) (vz c))))
               (1 / 10 * (1 / 10)))
    with (Rltb (dist_squared c goal) (1 / 10 * (1 / 10))).
  destruct (Rltb (dist_squared c goal) (1 / 10 * (1 / 10))); [reflexivity|].
  apply IH.
Qed.

Lemma plan_path_variants_agree {O1 O2 : Type} (start goal : vec3 R) (o1 : O1) (o2 : O2) :
  MechanicalDog.plan_path start goal o1 = MechanicalDogOptimized.plan_path start goal o2.
Proof.
  unfold MechanicalDog.plan_path, MechanicalDogOptimized.plan_path.
  apply plan_loop_variants_agree.
Qed.

Lemma plan_path_near {O : Type} (start goal : vec3 R) (obstacles : O) :
  dist_squared start goal < 1 / 100 ->
  MechanicalDogOptimized.plan_path start goal obstacles = [].
Proof.
  intros Hnear. unfold MechanicalDogOptimized.plan_path.
  apply plan_loop_stop. apply Rltb_true.
  change (dist_squared start goal < 1 / 10 * (1 / 10)). lra.
Qed.

Lemma dist_squared_diag (p : vec3 R) : dist_squared p p = 0.
Proof. unfold dist_squared. cbn. ring. Qed.

Lemma dist_squared_demo : dist_squared (Vec3 0 0 0) (Vec3 10 10 0) = 200.
Proof. unfold dist_squared. cbn. ring. Qed.

(** The planner's run from the origin to (10, 10, 0): 493 waypoints. *)
Lemma plan_path_demo {O : Type} (obstacles : O) :
  MechanicalDogOptimized.plan_path (Vec3 0 0 0) (Vec3 10 10 0) obstacles
  = waypoints 493 (Vec3 10 10 0) (1 / 100) (Vec3 0 0 0).
Proof.
  unfold MechanicalDogOptimized.plan_path.
  change (literal 1 100) with (1 / 100).
  change (fmul (literal 1 10) (literal 1 10)) with (1 / 10 * (1 / 10)).
  replace 1000%nat with (493 + 507)%nat by reflexivity.
  rewrite plan_loop_run.
  - apply plan_loop_stop. apply Rltb_true.
    rewrite dist_squared_reached, dist_squared_demo.
    pose proof shrink_493. lra.
  - intros j Hj. apply Rltb_false.
    rewrite dist_squared_reached, dist_squared_demo.
    pose proof shrink_492.
    assert ((9801 / 10000) ^ 492 <= (9801 / 10000) ^ j) by (apply shrink_pow_antitone; lia).
    lra.
Qed.

End PlannerReals.

Section PlannerTest.
Context {T : Type} `{Scalar T}.

Lemma plan_loop_grows (goal : vec3 T) (s tol : T) (k : nat) :
  forall (c : vec3 T) (path : list (vec3 T)),
  (length path <= length (MechanicalDogOptimized.plan_loop k goal s tol c path))%nat.
Proof.
  induction k as [|k IH]; intros c path; cbn [MechanicalDogOptimized.plan_loop]; [lia|].
  destruct (fltb _ tol); [lia|].
  etransitivity; [|apply IH]. rewrite length_app. simpl. lia.
Qed.

Lemma slow_plan_loop_grows (goal : vec3 T) (k : nat) :
  forall (c : vec3 T) (path : list (vec3 T)),
  (length path <= length (MechanicalDog.plan_loop k goal c path))%nat.
Proof.
  induction k as [|k IH]; intros c path; cbn [MechanicalDog.plan_loop]; [lia|].
  destruct (fltb _ _); [lia|].
  etransitivity; [|apply IH]. rewrite length_app. simpl. lia.
Qed.

(** The optimized planner returns the empty path exactly when the squared
    distance it computes for the start tests below [tolerance * tolerance]. *)
Lemma plan_path_empty_iff {O : Type} (start goal : vec3 T) (obstacles : O) :
  MechanicalDogOptimized.plan_path start goal obstacles = []
  <-> fltb (dist_squared start goal) (fmul (literal 1 10) (literal 1 10)) = true.
Proof.
  unfold MechanicalDogOptimized.plan_path. change 1000%nat with (S 999).
  destruct (fltb (dist_squared start goal) (fmul (literal 1 10) (literal 1 10))) eqn:Htest.
  - rewrite plan_loop_stop by exact Htest. tauto.
  - rewrite plan_loop_go by exact Htest. split; [|discriminate].
    intros Hnil. apply (f_equal length) in Hnil.
    pose proof (plan_loop_grows goal (literal 1 100) (fmul (literal 1 10) (literal 1 10)) 999
                  (step_toward goal (literal 1 100) start)
                  ([] ++ [step_toward goal (literal 1 100) start])) as Hgrow.
    rewrite Hnil in Hgrow. simpl in Hgrow. lia.
Qed.

Lemma slow_plan_loop_stop (k : nat) (goal c : vec3 T) (path : list (vec3 T)) :
  fltb (slow_dist_to_goal c goal) (literal 1 10) = true ->
  MechanicalDog.plan_loop (S k) goal c path = path.
Proof.
  intros Hnear. cbn [MechanicalDog.plan_loop]. unfold slow_dist_to_goal in Hnear.
  now rewrite Hnear.
Qed.

Lemma slow_plan_loop_go (k : nat) (goal c : vec3 T) (path : list (vec3 T)) :
  fltb (slow_dist_to_goal c goal) (literal 1 10) = false ->
  MechanicalDog.plan_loop (S k) goal c path
  = MechanicalDog.plan_loop k goal (step_toward goal (literal 1 100) c)
      (path ++ [step_toward goal (literal 1 100) c]).
Proof.
  intros Hfar. cbn [MechanicalDog.plan_loop]. unfold slow_dist_to_goal in Hfar.
  now rewrite Hfar.
Qed.

(** The slow planner, when the distance it computes tests below 0.1. *)
Lemma slow_plan_path_empty_iff {O : Type} (start goal : vec3 T) (obstacles : O) :
  MechanicalDog.plan_path start goal obstacles = []
  <-> fltb (slow_dist_to_goal start goal) (literal 1 10) = true.
Proof.
  unfold MechanicalDog.plan_path. change 1000%nat with (S 999).
  destruct (fltb (slow_dist_to_goal start goal) (literal 1 10)) eqn:Htest.
  - rewrite slow_plan_loop_stop by exact Htest. tauto.
  - rewrite slow_plan_loop_go by exact Htest. split; [|discriminate].
    intros Hnil. apply (f_equal length) in Hnil.
    pose proof (slow_plan_loop_grows goal 999
                  (step_toward goal (literal 1 100) start)
                  ([] ++ [step_toward goal (literal 1 100) start])) as Hgrow.
    rewrite Hnil in Hgrow. simpl in Hgrow. lia.
Qed.

Context `{Finiteness T}.

Lemma call_plan_loop_stop (k : nat) (goal c : vec3 T) (path : list (vec3 T)) :
  segment_overflows c goal = false ->
  fltb (slow_dist_to_goal c goal) (literal 1 10) = true ->
  MechanicalDog.call_plan_loop (S k) goal c path = Return path.
Proof.
  intros Hfin Htest. cbn [MechanicalDog.call_plan_loop]. cbv zeta.
  rewrite (squares_return c goal) by exact Hfin.
  fold (slow_dist_to_goal c goal). now rewrite Htest.
Qed.

Lemma call_plan_loop_overflow (k : nat) (goal c : vec3 T) (path : list (vec3 T)) :
  segment_overflows c goal = true ->
  MechanicalDog.call_plan_loop (S k) goal c path = Raise OverflowError.
Proof.
  intros Hinf. cbn [MechanicalDog.call_plan_loop]. cbv zeta.
  now rewrite (squares_raise c goal) by exact Hinf.
Qed.

(** What a call of the slow planner returns, when it returns, is the path
    of [plan_path]. *)
Lemma call_plan_loop_returns (goal : vec3 T) (k : nat) :
  forall (c : vec3 T) (path p : list (vec3 T)),
  MechanicalDog.call_plan_loop k goal c path = Return p ->
  MechanicalDog.plan_loop k goal c path = p.
Proof.
  induction k as [|k IH]; intros c path p; cbn [MechanicalDog.call_plan_loop MechanicalDog.plan_loop].
  - now intros [= ->].
  - cbv zeta. destruct (segment_overflows c goal) eqn:Hfin.
    + now rewrite (squares_raise c goal) by exact Hfin.
    + rewrite (squares_return c goal) by exact Hfin.
      destruct (fltb _ (literal 1 10)); [now intros [= ->]|]. apply IH.
Qed.

Lemma call_plan_path_returns {O : Type} (start goal : vec3 T) (obstacles : O)
    (path : list (vec3 T)) :
  MechanicalDog.call_plan_path start goal obstacles = Return path ->
  MechanicalDog.plan_path start goal obstacles = path.
Proof. apply call_plan_loop_returns. Qed.

Lemma call_plan_loop_empty_iff (k : nat) (goal c : vec3 T) :
  MechanicalDog.call_plan_loop (S k) goal c [] = Return []
  <-> segment_overflows c goal = false
      /\ fltb (slow_dist_to_goal c goal) (literal 1 10) = true.
Proof.
  split.
  - intros Hcall. destruct (segment_overflows c goal) eqn:Hfin.
    + rewrite (call_plan_loop_overflow k goal c [] Hfin) in Hcall. discriminate Hcall.
    + split; [reflexivity|].
      destruct (fltb (slow_dist_to_goal c goal) (literal 1 10)) eqn:Htest; [reflexivity|].
      apply call_plan_loop_returns in Hcall.
      rewrite (slow_plan_loop_go k goal c [] Htest) in Hcall.
      apply (f_equal length) in Hcall.
      pose proof (slow_plan_loop_grows goal k (step_toward goal (literal 1 100) c)
                    ([] ++ [step_toward goal (literal 1 100) c])) as Hgrow.
      rewrite Hcall in Hgrow. simpl in Hgrow. lia.
  - intros [Hfin Htest]. exact (call_plan_loop_stop k goal c [] Hfin Htest).
Qed.

(** A call of the slow planner returns the empty path exactly when no
    square of the start's differences overflows and the distance tests
    below 0.1; it raises when a square overflows. *)
Lemma call_plan_path_empty_iff {O : Type} (start goal : vec3 T) (obstacles : O) :
  MechanicalDog.call_plan_path start goal obstacles = Return []
  <-> segment_overflows start goal = false
      /\ fltb (slow_dist_to_goal start goal) (literal 1 10) = true.
Proof. exact (call_plan_loop_empty_iff 999 goal start). Qed.

Lemma call_plan_path_overflow {O : Type} (start goal : vec3 T) (obstacles : O) :
  segment_overflows start goal = true ->
  MechanicalDog.call_plan_path start goal obstacles = Raise OverflowError.
Proof. exact (call_plan_loop_overflow 999 goal start []). Qed.

Lemma call_plan_loop_length (goal : vec3 T) (k : nat) :
  forall (c : vec3 T) (path p : list (vec3 T)),
  MechanicalDog.call_plan_loop k goal c path = Return p ->
  (length p <= length path + k)%nat.
Proof.
  intros c path p Hcall. apply call_plan_loop_returns in Hcall. subst p.
  apply slow_plan_loop_length.
Qed.

Lemma call_plan_path_length {O : Type} (start goal : vec3 T) (obstacles : O)
    (path : list (vec3 T)) :
  MechanicalDog.call_plan_path start goal obstacles = Return path ->
  (length path <= 1000)%nat.
Proof.
  unfold MechanicalDog.call_plan_path. intros Hcall.
  apply call_plan_loop_length in Hcall. exact Hcall.
Qed.

End PlannerTest.

Section PlannerCalls.
Open Scope R_scope.

(** Over the reals a call of the slow planner never raises. *)
Lemma call_plan_loop_reals (goal : vec3 R) (k : nat) :
  forall (c : vec3 R) (path : list (vec3 R)),
  MechanicalDog.call_plan_loop k goal c path
  = Return (MechanicalDog.plan_loop k goal c path).
Proof.
  induction k as [|k IH]; intros c path; [reflexivity|].
  cbn [MechanicalDog.call_plan_loop MechanicalDog.plan_loop]. cbv zeta.
  rewrite (squares_return c goal) by reflexivity.
  destruct (fltb _ (literal 1 10)); [reflexivity|]. apply IH.
Qed.

Lemma call_plan_path_reals {O : Type} (start goal : vec3 R) (obstacles : O) :
  MechanicalDog.call_plan_path start goal obstacles
  = Return (MechanicalDog.plan_path start goal obstacles).
Proof. apply call_plan_loop_reals. Qed.

End PlannerCalls.

Section PlannerBinary64.

Lemma finite_point_coordinates (p : vec3 float) :
  finite_point p = true ->
  PrimFloat.is_finite (vx p) = true /\ PrimFloat.is_finite (vy p) = true
  /\ PrimFloat.is_finite (vz p) = true.
Proof.
  unfold finite_point. intros Hp.
  apply andb_prop in Hp as [Hp Hz]. apply andb_prop in Hp as [Hx Hy]. auto.
Qed.

(** In binary64 a finite start equal to the goal is within tolerance for
    both classes, and no square overflows. *)
Lemma plan_path_at_goal_binary64 {O : Type} (p : vec3 float) (obstacles : O) :
  finite_point p = true ->
  MechanicalDogOptimized.plan_path p p obstacles = []
  /\ MechanicalDog.plan_path p p obstacles = []
  /\ MechanicalDog.call_plan_path p p obstacles = Return [].
Proof.
  intros Hp. destruct (finite_point_coordinates p Hp) as (Hx & Hy & Hz).
  assert (Htest : fltb (slow_dist_to_goal p p) (literal 1 10) = true).
  { unfold slow_dist_to_goal. cbn [fsub binary64_scalar].
    rewrite !float_sub_diag by assumption. vm_compute. reflexivity. }
  split; [|split].
  - apply plan_path_empty_iff. unfold dist_squared. cbn [fsub binary64_scalar].
    rewrite !float_sub_diag by assumption. vm_compute. reflexivity.
  - now apply slow_plan_path_empty_iff.
  - apply call_plan_path_empty_iff. split; [|exact Htest].
    unfold segment_overflows. cbn [fsub binary64_scalar].
    rewrite !float_sub_diag by assumption. vm_compute. reflexivity.
Qed.

End PlannerBinary64.

Section PlannerClaim.
Open Scope R_scope.

(** C2, as the code has it.  From the origin to (10, 10, 0), with any
    obstacles, [plan_path] converges: it returns 493 waypoints, within the
    bound of 1000, the last at squared distance below 0.01 from the goal,
    over the reals in both classes and in binary64 alike.  Whatever the
    arithmetic, no path is longer than 1000, and the path is empty exactly
    when the start tests within tolerance as the code computes it: in the
    optimized class when the squared distance it computes is below
    [0.1 * 0.1], in a call of the slow class when no square overflows and
    the square root it computes is below [0.1]; what a call of the slow
    class returns is the path of its [plan_path].  Over the reals that test
    is a squared distance below 0.01, so a start within it, and a start
    equal to the goal, gives the empty path and nothing is raised.  In
    binary64 a start equal to a goal of finite coordinates gives the empty
    path in both classes. *)
Theorem plan_path_converges :
  (forall (O : Type) (obstacles : O),
     let goal := Vec3 10 10 0 in
     let path := MechanicalDogOptimized.plan_path (Vec3 0 0 0) goal obstacles in
     (length path <= 1000)%nat
     /\ length path = 493%nat
     /\ (exists w, last path = Some w /\ dist_squared w goal < 1 / 100)
     /\ MechanicalDog.plan_path (Vec3 0 0 0) goal obstacles = path
     /\ MechanicalDog.call_plan_path (Vec3 0 0 0) goal obstacles = Return path)
  /\ (forall (O : Type) (obstacles : O) (start goal : vec3 R),
        dist_squared start goal < 1 / 100 ->
        MechanicalDogOptimized.plan_path start goal obstacles = []
        /\ MechanicalDog.plan_path start goal obstacles = []
        /\ MechanicalDog.call_plan_path start goal obstacles = Return [])
  /\ (forall (O : Type) (obstacles : O) (p : vec3 R),
        MechanicalDogOptimized.plan_path p p obstacles = []
        /\ MechanicalDog.plan_path p p obstacles = []
        /\ MechanicalDog.call_plan_path p p obstacles = Return [])
  /\ (forall (T : Type) (HS : Scalar T) (O : Type) (obstacles : O) (start goal : vec3 T),
        (length (MechanicalDogOptimized.plan_path start goal obstacles) <= 1000)%nat
        /\ (length (MechanicalDog.plan_path start goal obstacles) <= 1000)%nat)
  /\ (forall (T : Type) (HS : Scalar T) (HF : Finiteness T) (O : Type) (obstacles : O)
             (start goal : vec3 T),
        (MechanicalDogOptimized.plan_path start goal obstacles = []
         <-> fltb (dist_squared start goal) (fmul (literal 1 10) (literal 1 10)) = true)
        /\ (MechanicalDog.call_plan_path start goal obstacles = Return []
            <-> segment_overflows start goal = false
                /\ fltb (slow_dist_to_goal start goal) (literal 1 10) = true)
        /\ (segment_overflows start goal = true ->
            MechanicalDog.call_plan_path start goal obstacles = Raise OverflowError)
        /\ (forall path : list (vec3 T),
              MechanicalDog.call_plan_path start goal obstacles = Return path ->
              (length path <= 1000)%nat
              /\ MechanicalDog.plan_path start goal obstacles = path))
  /\ (let goal := Vec3 (of_int 10) (of_int 10) (of_int 0) : vec3 float in
      let path := MechanicalDogOptimized.plan_path
                    (Vec3 (of_int 0) (of_int 0) (of_int 0)) goal tt in
      length path = 493%nat
      /\ (exists w, last path = Some w
                    /\ fltb (dist_squared w goal) (literal 1 100) = true)
      /\ MechanicalDog.call_plan_path (Vec3 (of_int 0) (of_int 0) (of_int 0)) goal tt
         = Return path)
  /\ (forall (O : Type) (obstacles : O) (p : vec3 float),
        finite_point p = true ->
        MechanicalDogOptimized.plan_path p p obstacles = []
        /\ MechanicalDog.plan_path p p obstacles = []
        /\ MechanicalDog.call_plan_path p p obstacles = Return []).
Proof.
  split; [|split; [|split; [|split; [|split; [|split]]]]].
  - intros O obstacles goal path. unfold path, goal. clear path goal.
    rewrite (call_plan_path_reals (Vec3 0 0 0) (Vec3 10 10 0) obstacles).
    rewrite (plan_path_variants_agree (Vec3 0 0 0) (Vec3 10 10 0) obstacles obstacles).
    rewrite plan_path_demo, waypoints_length.
    split; [lia|]. split; [reflexivity|]. split; [|split; reflexivity].
    exists (reached 493 (Vec3 10 10 0) (1 / 100) (Vec3 0 0 0)).
    split; [apply waypoints_last|].
    rewrite dist_squared_reached, dist_squared_demo. apply shrink_493.
  - intros O obstacles start goal Hnear.
    rewrite (call_plan_path_reals start goal obstacles).
    rewrite (plan_path_variants_agree start goal obstacles obstacles).
    rewrite (plan_path_near start goal obstacles Hnear). auto.
  - intros O obstacles p.
    assert (Hnear : dist_squared p p < 1 / 100) by (rewrite dist_squared_diag; lra).
    rewrite (call_plan_path_reals p p obstacles).
    rewrite (plan_path_variants_agree p p obstacles obstacles).
    rewrite (plan_path_near p p obstacles Hnear). auto.
  - intros T HS O obstacles start goal. split.
    + unfold MechanicalDogOptimized.plan_path.
      apply (plan_loop_length goal _ _ 1000 start []).
    + unfold MechanicalDog.plan_path.
      apply (slow_plan_loop_length goal 1000 start []).
  - intros T HS HF O obstacles start goal.
    split; [apply plan_path_empty_iff|].
    split; [apply call_plan_path_empty_iff|].
    split; [apply call_plan_path_overflow|].
    intros path Hcall. split.
    + exact (call_plan_path_length start goal obstacles path Hcall).
    + exact (call_plan_path_returns start goal obstacles path Hcall).
  - cbv zeta. split; [vm_compute; reflexivity|]. split; [|vm_compute; reflexivity].
    eexists. split; vm_compute; reflexivity.
  - intros O obstacles p. apply plan_path_at_goal_binary64.
Qed.

End PlannerClaim.

(** A start at the goal, which has finite coordinates. *)
Lemma plan_path_converges_witness :
  finite_point (Vec3 10 10 0)%float = true
  /\ MechanicalDogOptimized.plan_path (Vec3 10 10 0)%float (Vec3 10 10 0)%float tt = []
  /\ MechanicalDog.call_plan_path (Vec3 10 10 0)%float (Vec3 10 10 0)%float tt = Return [].
Proof.
  split; [reflexivity|].
  destruct plan_path_converges as (_ & _ & _ & _ & _ & _ & Hgoal).
  destruct (Hgoal unit tt (Vec3 10 10 0)%float) as (Hopt & _ & Hcall); [reflexivity|].
  split; [exact Hopt|exact Hcall].
Defined.

(** C2, as claimed, fails.  The start below has finite coordinates and its
    squared distance to the origin, taken exactly, is below 0.01; yet in
    binary64 the squared distance the code computes for it is the float
    0.1 * 0.1 = 0.010000000000000002 and does not test below it, so
    neither class returns the empty path: each returns one waypoint. *)
Lemma plan_path_rounding_near_start :
  let start := (Vec3 0x1.6ff15c85b8addp-4 0x1.05ef846630c54p-5 0x1.edc390f2b5678p-6)%float in
  let goal := (Vec3 0 0 0)%float in
  finite_point start = true
  /\ (dist_squared
        (Vec3 (real_of_float 0x1.6ff15c85b8addp-4) (real_of_float 0x1.05ef846630c54p-5)
              (real_of_float 0x1.edc390f2b5678p-6))
        (Vec3 0 0 0) < 1 / 100)%R
  /\ dist_squared start goal = fmul (literal 1 10) (literal 1 10)
  /\ fltb (dist_squared start goal) (fmul (literal 1 10) (literal 1 10)) = false
  /\ length (MechanicalDogOptimized.plan_path start goal tt) = 1%nat
  /\ (exists w, MechanicalDog.call_plan_path start goal tt = Return [w]).
Proof.
  cbv zeta.
  split; [vm_compute; reflexivity|]. split.
  - float_value 0x1.6ff15c85b8addp-4%float.
    float_value 0x1.05ef846630c54p-5%float.
    float_value 0x1.edc390f2b5678p-6%float.
    cbv beta iota. unfold dist_squared. cbn [vx vy vz fsub fadd fmul R_scalar].
    unfold powerRZ.
    change (Pos.to_nat 56) with 56%nat. change (Pos.to_nat 57) with 57%nat.
    change (Pos.to_nat 58) with 58%nat.
    lra.
  - split; [vm_compute; reflexivity|]. split; [vm_compute; reflexivity|].
    split; [vm_compute; reflexivity|]. eexists. vm_compute. reflexivity.
Qed.

(** ** The two classes compared *)

Section SlowScanner.
Context {T : Type} `{Scalar T}.

Lemma foldl_snoc_fmap {A B} (f : A -> B) (xs : list A) :
  forall acc : list B, foldl (fun acc x => acc ++ [f x]) acc xs = acc ++ (f <$> xs).
Proof.
  induction xs as [|x xs IH]; intros acc; simpl; [now rewrite app_nil_r|].
  now rewrite IH, <- app_assoc.
Qed.

Lemma slow_scan_rows (n : Z) (rows : list Z) :
  forall acc : list (pynum T),
  foldl (fun readings i =>
           foldl (fun readings j =>
                    let reading := fadd (fsquare (of_int i)) (fsquare (of_int j)) in
                    readings ++ [PyFloat reading])
                 readings (py_range n))
        acc rows
  = acc ++ (rows ≫= slow_row n).
Proof.
  induction rows as [|i rows IH]; intros acc; simpl; [now rewrite app_nil_r|].
  rewrite IH. cbv zeta.
  rewrite (foldl_snoc_fmap
             (fun j => PyFloat (fadd (fsquare (of_int i)) (fsquare (of_int j))))).
  now rewrite <- app_assoc.
Qed.

(** The slow scanner returns its rows and appends them to [sensor_data]. *)
Lemma slow_scan_environment (n : Z) (self : MechanicalDog.dog T) :
  MechanicalDog.scan_environment n self
  = (Return (py_range n ≫= slow_row n),
     MechanicalDog.set_sensor_data
       (MechanicalDog.sensor_data self ++ (py_range n ≫= slow_row n)) self).
Proof.
  unfold MechanicalDog.scan_environment. now rewrite slow_scan_rows.
Qed.

Lemma slow_row_length (n i : Z) : length (slow_row (T:=T) n i) = Z.to_nat n.
Proof. unfold slow_row. now rewrite length_fmap, py_range_length. Qed.

Lemma slow_rows_length (n : Z) :
  length (py_range n ≫= slow_row (T:=T) n) = (Z.to_nat n * Z.to_nat n)%nat.
Proof.
  rewrite <- (py_range_length n) at 1.
  induction (py_range n) as [|i rows IH]; [reflexivity|].
  rewrite bind_cons, length_app, slow_row_length, IH. reflexivity.
Qed.

(** The slow class appends: [scan_environment] returns its [n * n]
    readings (none for a negative [n]) and extends [sensor_data] with them,
    so after two scans [sensor_data] holds what it held before and the
    readings twice. *)
Theorem slow_scan_environment_appends (n : Z) (self : MechanicalDog.dog T) :
  let readings := py_range n ≫= slow_row n in
  let self1 := snd (MechanicalDog.scan_environment n self) in
  let self2 := snd (MechanicalDog.scan_environment n self1) in
  fst (MechanicalDog.scan_environment n self) = Return readings
  /\ length readings = (Z.to_nat n * Z.to_nat n)%nat
  /\ MechanicalDog.sensor_data self1 = MechanicalDog.sensor_data self ++ readings
  /\ fst (MechanicalDog.scan_environment n self1) = Return readings
  /\ MechanicalDog.sensor_data self2
     = MechanicalDog.sensor_data self ++ readings ++ readings
  /\ length (MechanicalDog.sensor_data self2)
     = (length (MechanicalDog.sensor_data self)
        + 2 * (Z.to_nat n * Z.to_nat n))%nat.
Proof.
  cbv zeta. rewrite !slow_scan_environment.
  cbn [fst snd MechanicalDog.sensor_data MechanicalDog.set_sensor_data].
  rewrite <- app_assoc, !length_app, slow_rows_length.
  repeat match goal with |- _ /\ _ => split end; try reflexivity. lia.
Qed.

End SlowScanner.

Section SlowScannerField.
Context {T : Type} `{Scalar T}.

Lemma slow_rows_lookup (n i j : Z) :
  (0 <= i < n)%Z -> (0 <= j < n)%Z ->
  (py_range n ≫= slow_row (T:=T) n) !! Z.to_nat (i * n + j)
  = Some (PyFloat (fadd (fsquare (of_int i)) (fsquare (of_int j)))).
Proof.
  intros Hi Hj.
  replace (Z.to_nat (i * n + j)) with (Z.to_nat i * Z.to_nat n + Z.to_nat j)%nat by nia.
  rewrite (bind_rows_lookup (slow_row n) (Z.to_nat n) (py_range n)
             (slow_row_length n) _ _ i).
  - unfold slow_row. rewrite list_lookup_fmap, py_range_lookup by lia. reflexivity.
  - now apply py_range_lookup.
  - lia.
Qed.

End SlowScannerField.

Section ScannerBinary64.

(** In binary64 the float [math.pow(i, 2) + math.pow(j, 2)] is the float of
    the int [i * i + j * j], for all counters below 100; by evaluation. *)
Lemma squares_exact_check :
  forallb (fun i =>
             forallb (fun j =>
                        PrimFloat.Leibniz.eqb
                          (fadd (fsquare (of_int i)) (fsquare (of_int j)))
                          (of_int (i * i + j * j)%Z))
                     (seqZ 0 100))
          (seqZ 0 100)
  = true.
Proof. vm_compute. reflexivity. Qed.

Lemma squares_exact (i j : Z) :
  (0 <= i < 100)%Z -> (0 <= j < 100)%Z ->
  fadd (fsquare (of_int i)) (fsquare (of_int j)) = (of_int (i * i + j * j)%Z : float).
Proof.
  intros Hi Hj. pose proof squares_exact_check as Hall.
  rewrite forallb_forall in Hall.
  assert (Hin : forall k, (0 <= k < 100)%Z -> In k (seqZ 0 100)).
  { intros k Hk. apply list_elem_of_In, elem_of_seqZ. lia. }
  specialize (Hall i (Hin i Hi)). rewrite forallb_forall in Hall.
  specialize (Hall j (Hin j Hj)). now apply FloatAxioms.Leibniz.eqb_spec in Hall.
Qed.

End ScannerBinary64.

Section ScannerBothClasses.

(** C1, as the code has it.  For a non-negative [num_samples = n],
    whatever the arithmetic, [scan_environment] raises nothing and returns
    a list of [n * n] readings, empty for [n = 0].  In the optimized class
    entry [i * n + j] is the int [i * i + j * j], and the list is stored as
    [sensor_data], replacing what was there and touching no other
    attribute: a second scan with the same [n] leaves it in [sensor_data],
    of length [n * n] again.  In the slow class entry [i * n + j] is the
    float that [math.pow(i, 2) + math.pow(j, 2)] evaluates to, and the list
    is appended to [sensor_data]: a second scan with the same [n] leaves
    [sensor_data] longer by [2 * n * n] than it was at first.  The float of
    the slow class is the number [i * i + j * j] over the reals, and in
    binary64 the float of that int for every [n] up to 100, which covers
    the scans of the simulation, the tests and the benchmark. *)
Theorem scan_environment_field :
  (forall (T : Type) (HS : Scalar T) (n : Z) (self : MechanicalDogOptimized.dog T),
     (0 <= n)%Z ->
     exists field : list (pynum T),
       MechanicalDogOptimized.scan_environment n self
       = (Return field, MechanicalDogOptimized.set_sensor_data field self)
       /\ Z.of_nat (length field) = (n * n)%Z
       /\ (forall i j : Z, (0 <= i < n)%Z -> (0 <= j < n)%Z ->
             field !! Z.to_nat (i * n + j) = Some (PyInt (i * i + j * j)%Z))
       /\ (n = 0%Z -> field = [])
       /\ MechanicalDogOptimized.sensor_data
            (snd (MechanicalDogOptimized.scan_environment n self)) = field
       /\ MechanicalDogOptimized.scan_environment n
            (snd (MechanicalDogOptimized.scan_environment n self))
          = (Return field, MechanicalDogOptimized.set_sensor_data field self)
       /\ Z.of_nat (length (MechanicalDogOptimized.sensor_data
            (snd (MechanicalDogOptimized.scan_environment n
                    (snd (MechanicalDogOptimized.scan_environment n self))))))
          = (n * n)%Z)
  /\ (forall (T : Type) (HS : Scalar T) (n : Z) (self : MechanicalDog.dog T),
        (0 <= n)%Z ->
        exists readings : list (pynum T),
          MechanicalDog.scan_environment n self
          = (Return readings,
             MechanicalDog.set_sensor_data
               (MechanicalDog.sensor_data self ++ readings) self)
          /\ Z.of_nat (length readings) = (n * n)%Z
          /\ (forall i j : Z, (0 <= i < n)%Z -> (0 <= j < n)%Z ->
                readings !! Z.to_nat (i * n + j)
                = Some (PyFloat (fadd (fsquare (of_int i)) (fsquare (of_int j)))))
          /\ (n = 0%Z -> readings = [])
          /\ MechanicalDog.sensor_data (snd (MechanicalDog.scan_environment n self))
             = MechanicalDog.sensor_data self ++ readings
          /\ fst (MechanicalDog.scan_environment n
                    (snd (MechanicalDog.scan_environment n self)))
             = Return readings
          /\ MechanicalDog.sensor_data
               (snd (MechanicalDog.scan_environment n
                       (snd (MechanicalDog.scan_environment n self))))
             = MechanicalDog.sensor_data self ++ readings ++ readings
          /\ Z.of_nat (length (MechanicalDog.sensor_data
               (snd (MechanicalDog.scan_environment n
                       (snd (MechanicalDog.scan_environment n self))))))
             = (Z.of_nat (length (MechanicalDog.sensor_data self)) + 2 * (n * n))%Z)
  /\ (forall (n : Z) (self : MechanicalDog.dog R),
        (0 <= n)%Z ->
        exists readings : list (pynum R),
          fst (MechanicalDog.scan_environment n self) = Return readings
          /\ forall i j : Z, (0 <= i < n)%Z -> (0 <= j < n)%Z ->
               pynum_value <$> readings !! Z.to_nat (i * n + j)
               = Some (IZR (i * i + j * j)))
  /\ (forall (n : Z) (self : MechanicalDog.dog float),
        (0 <= n <= 100)%Z ->
        exists readings : list (pynum float),
          fst (MechanicalDog.scan_environment n self) = Return readings
          /\ forall i j : Z, (0 <= i < n)%Z -> (0 <= j < n)%Z ->
               readings !! Z.to_nat (i * n + j)
               = Some (PyFloat (of_int (i * i + j * j)%Z))).
Proof.
  split; [|split; [|split]].
  - intros T HS n self Hn. exists (grid n).
    assert (Hlen : Z.of_nat (length (grid (T:=T) n)) = (n * n)%Z)
      by (rewrite grid_nonneg_length; nia).
    rewrite scan_environment_nonneg by assumption. cbn [fst snd].
    rewrite scan_environment_nonneg by assumption. cbn [fst snd].
    cbn [MechanicalDogOptimized.sensor_data MechanicalDogOptimized.set_sensor_data].
    split; [reflexivity|]. split; [exact Hlen|].
    split; [intros i j; apply grid_lookup|].
    split; [intros ->; reflexivity|].
    split; [reflexivity|]. split; [reflexivity|exact Hlen].
  - intros T HS n self Hn. exists (py_range n ≫= slow_row n).
    assert (Hlen : Z.of_nat (length (py_range n ≫= slow_row (T:=T) n)) = (n * n)%Z)
      by (rewrite slow_rows_length; nia).
    rewrite !slow_scan_environment.
    cbn [fst snd MechanicalDog.sensor_data MechanicalDog.set_sensor_data].
    split; [reflexivity|]. split; [exact Hlen|].
    split; [intros i j; apply slow_rows_lookup|].
    split; [intros ->; reflexivity|].
    split; [reflexivity|]. split; [reflexivity|].
    split; [now rewrite <- app_assoc|].
    rewrite !length_app. lia.
  - intros n self Hn. exists (py_range n ≫= slow_row n).
    rewrite slow_scan_environment. split; [reflexivity|].
    intros i j Hi Hj. rewrite slow_rows_lookup by assumption.
    cbn. now rewrite plus_IZR, !mult_IZR.
  - intros n self Hn. exists (py_range n ≫= slow_row n).
    rewrite slow_scan_environment. split; [reflexivity|].
    intros i j Hi Hj. rewrite slow_rows_lookup by assumption.
    rewrite squares_exact by lia. reflexivity.
Qed.

End ScannerBothClasses.

(** A scan of size 3 by a fresh agent of each class, in binary64. *)
Lemma scan_environment_field_witness :
  (0 <= 3)%Z
  /\ (exists field : list (pynum float),
        MechanicalDogOptimized.scan_environment 3 (MechanicalDogOptimized.init "Spot" 1000)
        = (Return field,
           MechanicalDogOptimized.set_sensor_data field
             (MechanicalDogOptimized.init "Spot" 1000))
        /\ field = [PyInt 0; PyInt 1; PyInt 4; PyInt 1; PyInt 2; PyInt 5;
                    PyInt 4; PyInt 5; PyInt 8]%Z)
  /\ (exists readings : list (pynum float),
        MechanicalDog.scan_environment 3 (MechanicalDog.init "Spot")
        = (Return readings,
           MechanicalDog.set_sensor_data readings (MechanicalDog.init "Spot"))
        /\ readings = [PyFloat 0; PyFloat 1; PyFloat 4; PyFloat 1; PyFloat 2; PyFloat 5;
                       PyFloat 4; PyFloat 5; PyFloat 8]%float).
Proof.
  split; [lia|].
  destruct scan_environment_field as (Hopt & Hslow & _).
  split.
  - destruct (Hopt float _ 3%Z (MechanicalDogOptimized.init "Spot" 1000))
      as (field & Hscan & _); [lia|].
    exists field. split; [exact Hscan|].
    vm_compute in Hscan. now injection Hscan as <-.
  - destruct (Hslow float _ 3%Z (MechanicalDog.init "Spot"))
      as (readings & Hscan & _); [lia|].
    exists readings. split; [exact Hscan|].
    vm_compute in Hscan. now injection Hscan as <-.
Defined.

(** C1, as claimed, fails in the slow class: a second scan with the same
    [n = 3] leaves 18 readings in [sensor_data], not [3 * 3]; the first
    nine are still there. *)
Lemma scan_environment_slow_grows :
  length (MechanicalDog.sensor_data
            (snd (MechanicalDog.scan_environment 3
                    (snd (MechanicalDog.scan_environment 3
                            (MechanicalDog.init (T:=float) "Test"))))))
  = 18%nat
  /\ 18%nat <> (3 * 3)%nat
  /\ MechanicalDog.sensor_data
       (snd (MechanicalDog.scan_environment 3
               (snd (MechanicalDog.scan_environment 3
                       (MechanicalDog.init (T:=float) "Test")))))
     = MechanicalDog.sensor_data
         (snd (MechanicalDog.scan_environment 3 (MechanicalDog.init (T:=float) "Test")))
       ++ [PyFloat 0; PyFloat 1; PyFloat 4; PyFloat 1; PyFloat 2; PyFloat 5;
           PyFloat 4; PyFloat 5; PyFloat 8]%float.
Proof.
  split; [vm_compute; reflexivity|]. split; [simpl; lia|vm_compute; reflexivity].
Qed.

Section VariantsReals.
Open Scope R_scope.

Lemma slow_row_value (n i : Z) :
  pynum_value <$> slow_row n i = pynum_value <$> grid_row (T:=R) n i.
Proof.
  unfold slow_row, grid_row. rewrite <- !list_fmap_compose.
  apply list_fmap_ext. intros _ j _. cbn.
  now rewrite plus_IZR, !mult_IZR.
Qed.

Lemma slow_grid_value (n : Z) :
  pynum_value <$> (py_range n ≫= slow_row n) = pynum_value <$> grid (T:=R) n.
Proof.
  unfold grid. induction (py_range n) as [|i rows IH]; [reflexivity|].
  rewrite !bind_cons, !fmap_app, IH, slow_row_value. reflexivity.
Qed.

Lemma leg_kinematics_variants_agree (i : Z) (target : vec3 R)
    (s : MechanicalDog.dog R) (o : MechanicalDogOptimized.dog R) :
  MechanicalDog.leg_positions s = MechanicalDogOptimized.leg_positions o ->
  fst (MechanicalDog.calculate_leg_kinematics i target s)
  = fst (MechanicalDogOptimized.calculate_leg_kinematics i target o).
Proof.
  intros Hlegs.
  unfold MechanicalDog.calculate_leg_kinematics,
    MechanicalDogOptimized.calculate_leg_kinematics.
  cbn [fst]. rewrite Hlegs.
  destruct (py_getitem (MechanicalDogOptimized.leg_positions o) i) as [e|leg];
    [reflexivity|].
  cbn. now rewrite Rplus_0_l.
Qed.

(** Over the reals, on a scan of non-negative size and on every input of
    the other operations, the two classes return equal results: the same
    position, the same leg distance or the same [IndexError], readings of
    the same values, the same obstacles as a set, the same path, the same
    energy and log. *)
Theorem variants_agree_over_reals :
  (forall (delta_time : R) (s : MechanicalDog.dog R) (o : MechanicalDogOptimized.dog R),
     MechanicalDog.position s = MechanicalDogOptimized.position o ->
     MechanicalDog.velocity s = MechanicalDogOptimized.velocity o ->
     MechanicalDog.position (snd (MechanicalDog.update_position delta_time s))
     = MechanicalDogOptimized.position
         (snd (MechanicalDogOptimized.update_position delta_time o)))
  /\ (forall (i : Z) (target : vec3 R)
             (s : MechanicalDog.dog R) (o : MechanicalDogOptimized.dog R),
        MechanicalDog.leg_positions s = MechanicalDogOptimized.leg_positions o ->
        fst (MechanicalDog.calculate_leg_kinematics i target s)
        = fst (MechanicalDogOptimized.calculate_leg_kinematics i target o))
  /\ (forall (n : Z) (s : MechanicalDog.dog R) (o : MechanicalDogOptimized.dog R),
        (0 <= n)%Z ->
        exists ls lo,
          fst (MechanicalDog.scan_environment n s) = Return ls
          /\ fst (MechanicalDogOptimized.scan_environment n o) = Return lo
          /\ pynum_value <$> ls = pynum_value <$> lo)
  /\ (forall field : list Z,
        list_to_set (MechanicalDog.find_obstacles field)
        = MechanicalDogOptimized.find_obstacles field)
  /\ (forall (O : Type) (start goal : vec3 R) (obstacles : O),
        MechanicalDog.plan_path start goal obstacles
        = MechanicalDogOptimized.plan_path start goal obstacles)
  /\ (forall path : list (vec3 R),
        MechanicalDog.calculate_energy_consumption path
        = MechanicalDogOptimized.calculate_energy_consumption path).
Proof.
  split; [|split; [|split; [|split; [|split]]]].
  - intros delta_time s o Hp Hv. cbn. now rewrite Hp, Hv.
  - apply leg_kinematics_variants_agree.
  - intros n s o Hn. exists (py_range n ≫= slow_row n), (grid n).
    rewrite slow_scan_environment, scan_environment_nonneg by assumption.
    split; [reflexivity|]. split; [reflexivity|]. apply slow_grid_value.
  - apply find_obstacles_variants_agree.
  - intros O start goal obstacles. apply plan_path_variants_agree.
  - apply energy_variants_agree.
Qed.

End VariantsReals.

(** A scan of size 3 by both classes. *)
Lemma variants_agree_over_reals_witness :
  (0 <= 3)%Z
  /\ exists ls lo,
       fst (MechanicalDog.scan_environment 3 (MechanicalDog.init (T:=R) "Test")) = Return ls
       /\ fst (MechanicalDogOptimized.scan_environment 3
                 (MechanicalDogOptimized.init (T:=R) "Test" 1000)) = Return lo
       /\ pynum_value <$> ls = pynum_value <$> lo.
Proof.
  split; [lia|].
  destruct variants_agree_over_reals as (_ & _ & Hscan & _).
  refine (Hscan 3%Z (MechanicalDog.init "Test") (MechanicalDogOptimized.init "Test" 1000) _).
  lia.
Defined.

Section VariantsDiverge.
Context {T : Type} `{Scalar T}.

(** C9, where the code departs from it.  Asked for a scan of size -2, the
    slow class returns the empty list and the optimized class a list of
    four floats [0.0]: the two results differ in length, so they are not
    equal within any tolerance. *)
Theorem scan_variants_diverge :
  fst (MechanicalDog.scan_environment (-2) (MechanicalDog.init "Test")) = Return []
  /\ fst (MechanicalDogOptimized.scan_environment (-2)
            (MechanicalDogOptimized.init "Test" 1000))
     = Return [PyFloat fzero; PyFloat fzero; PyFloat fzero; PyFloat fzero]
  /\ length ([] : list (pynum T))
     <> length [PyFloat (T:=T) fzero; PyFloat fzero; PyFloat fzero; PyFloat fzero].
Proof.
  split; [reflexivity|]. split; [reflexivity|]. discriminate.
Qed.

End VariantsDiverge.

(** ** More on the path planner *)

Section PlannerShape.
Context {T : Type} `{Scalar T}.
Import MechanicalDogOptimized.

(** The loop appends waypoints until the first point within tolerance, or
    until its iterations are used up. *)
Lemma plan_loop_shape (goal : vec3 T) (s tol : T) (k : nat) :
  forall (c : vec3 T) (path : list (vec3 T)),
  exists n : nat,
    (n <= k)%nat
    /\ plan_loop k goal s tol c path = path ++ waypoints n goal s c
    /\ (forall j, (j < n)%nat -> fltb (dist_squared (reached j goal s c) goal) tol = false)
    /\ ((n < k)%nat -> fltb (dist_squared (reached n goal s c) goal) tol = true).
Proof.
  induction k as [|k IH]; intros c path.
  - exists 0%nat. cbn [plan_loop waypoints]. rewrite app_nil_r.
    repeat split; [lia|intros; lia|intros; lia].
  - destruct (fltb (dist_squared c goal) tol) eqn:Hc.
    + exists 0%nat. rewrite plan_loop_stop by exact Hc.
      cbn [waypoints reached]. rewrite app_nil_r.
      repeat split; [lia|intros; lia|intros; exact Hc].
    + rewrite plan_loop_go by exact Hc.
      destruct (IH (step_toward goal s c) (path ++ [step_toward goal s c]))
        as (n & Hn & Hrun & Hfar & Hnear).
      exists (S n). cbn [waypoints reached].
      split; [lia|]. split; [rewrite Hrun, <- app_assoc; reflexivity|].
      split.
      * intros [|j] Hj; [exact Hc|]. apply Hfar. lia.
      * intros Hlt. apply Hnear. lia.
Qed.

Lemma waypoints_lookup (goal : vec3 T) (s : T) (n : nat) :
  forall (c : vec3 T) (k : nat),
  (k < n)%nat -> waypoints n goal s c !! k = Some (reached (S k) goal s c).
Proof.
  induction n as [|n IH]; intros c k Hk; [lia|].
  destruct k as [|k]; [reflexivity|].
  cbn [waypoints reached]. change ((?x :: ?l) !! S k) with (l !! k).
  rewrite IH by lia. reflexivity.
Qed.

End PlannerShape.

Section PlannerGeneral.
Open Scope R_scope.

Lemma Rltb_lt (x y : R) : Rltb x y = true <-> x < y.
Proof. unfold Rltb. destruct (Rlt_dec x y); split; intros; (assumption || discriminate || reflexivity || lra). Qed.

Lemma Rltb_ge (x y : R) : Rltb x y = false <-> y <= x.
Proof.
  unfold Rltb. destruct (Rlt_dec x y); split; intros; try discriminate; try reflexivity; lra.
Qed.

(** The point reached after [n] steps lies on the segment from the start
    to the goal, at the fraction [0.99 ^ n] of the way back. *)
Lemma reached_closed_form (goal : vec3 R) (n : nat) :
  forall c : vec3 R,
  reached n goal (1 / 100) c
  = Vec3 (vx goal + (vx c - vx goal) * (99 / 100) ^ n)
         (vy goal + (vy c - vy goal) * (99 / 100) ^ n)
         (vz goal + (vz c - vz goal) * (99 / 100) ^ n).
Proof.
  induction n as [|n IH]; intros c.
  - destruct c as [x y z]. cbn. f_equal; ring.
  - cbn [reached]. rewrite IH. unfold step_toward. cbn. f_equal; field.
Qed.

Lemma shrink_below (c : Z) (n : nat) :
  (100 * c * 9801 ^ Z.of_nat n < 10000 ^ Z.of_nat n)%Z ->
  IZR c * (9801 / 10000) ^ n < 1 / 100.
Proof.
  intros Hlt. apply IZR_lt in Hlt. rewrite !mult_IZR in Hlt.
  rewrite pow_ratio.
  assert (Hpos : 0 < IZR (10000 ^ Z.of_nat n)).
  { apply IZR_lt. apply Z.pow_pos_nonneg; lia. }
  generalize dependent (IZR (9801 ^ Z.of_nat n)).
  generalize dependent (IZR (10000 ^ Z.of_nat n)).
  intros y Hpos x Hlt.
  apply Rmult_lt_reg_r with (r := y); [exact Hpos|].
  replace (IZR c * (x / y) * y) with (IZR c * x) by (field; lra). lra.
Qed.

Lemma shrink_above (c : Z) (n : nat) :
  (10000 ^ Z.of_nat n <= 100 * c * 9801 ^ Z.of_nat n)%Z ->
  1 / 100 <= IZR c * (9801 / 10000) ^ n.
Proof.
  intros Hle. apply IZR_le in Hle. rewrite !mult_IZR in Hle.
  rewrite pow_ratio.
  assert (Hpos : 0 < IZR (10000 ^ Z.of_nat n)).
  { apply IZR_lt. apply Z.pow_pos_nonneg; lia. }
  generalize dependent (IZR (9801 ^ Z.of_nat n)).
  generalize dependent (IZR (10000 ^ Z.of_nat n)).
  intros y Hpos x Hle.
  apply Rmult_le_reg_r with (r := y); [exact Hpos|].
  replace (IZR c * (x / y) * y) with (IZR c * x) by (field; lra). lra.
Qed.

Lemma near_range_int : (100 * 5000000 * 9801 ^ 999 <? 10000 ^ 999)%Z = true.
Proof. vm_compute. reflexivity. Qed.

Lemma far_range_int : (10000 ^ 1000 <=? 100 * 10000000 * 9801 ^ 1000)%Z = true.
Proof. vm_compute. reflexivity. Qed.

Lemma near_range : 5000000 * (9801 / 10000) ^ 999 < 1 / 100.
Proof.
  apply (shrink_below 5000000 999). change (Z.of_nat 999) with 999%Z.
  apply Z.ltb_lt. exact near_range_int.
Qed.

Lemma far_range : 1 / 100 <= 10000000 * (9801 / 10000) ^ 1000.
Proof.
  apply (shrink_above 10000000 1000). change (Z.of_nat 1000) with 1000%Z.
  apply Z.leb_le. exact far_range_int.
Qed.

Lemma shrink_pow_nonneg (n : nat) : 0 <= (9801 / 10000) ^ n.
Proof. apply pow_le. lra. Qed.

(** The planner over the reals, for any start and goal. *)
Lemma plan_path_shape {O : Type} (obstacles : O) (start goal : vec3 R) :
  exists n : nat,
    (n <= 1000)%nat
    /\ MechanicalDogOptimized.plan_path start goal obstacles
       = waypoints n goal (1 / 100) start
    /\ (forall j, (j < n)%nat ->
          1 / 100 <= dist_squared start goal * (9801 / 10000) ^ j)
    /\ ((n < 1000)%nat -> dist_squared start goal * (9801 / 10000) ^ n < 1 / 100).
Proof.
  unfold MechanicalDogOptimized.plan_path.
  change (literal 1 100) with (1 / 100).
  change (fmul (literal 1 10) (literal 1 10)) with (1 / 10 * (1 / 10)).
  destruct (plan_loop_shape goal (1 / 100) (1 / 10 * (1 / 10)) 1000 start [])
    as (n & Hn & Hrun & Hfar & Hnear).
  exists n. split; [exact Hn|]. split; [exact Hrun|]. split.
  - intros j Hj. specialize (Hfar j Hj). apply Rltb_ge in Hfar.
    rewrite dist_squared_reached in Hfar. lra.
  - intros Hlt. specialize (Hnear Hlt). apply Rltb_lt in Hnear.
    rewrite dist_squared_reached in Hnear. lra.
Qed.

End PlannerGeneral.

Section PlannerGeneralClaims.
Open Scope R_scope.

(** The planner walks the straight line to the goal.  For any start and
    goal it returns at most 1000 waypoints; waypoint [k] (from 0) is the
    point at the fraction [0.99 ^ (k + 1)] of the way back from the goal to
    the start, at squared distance [0.9801 ^ (k + 1)] times the start's;
    the start and every waypoint but the last are out of tolerance; and a
    path of fewer than 1000 waypoints ends within tolerance. *)
Theorem plan_path_straight_line :
  forall (O : Type) (obstacles : O) (start goal : vec3 R),
    let path := MechanicalDogOptimized.plan_path start goal obstacles in
    let n := length path in
    (n <= 1000)%nat
    /\ (forall (k : nat) (w : vec3 R),
          path !! k = Some w ->
          vx w = vx goal + (vx start - vx goal) * (99 / 100) ^ S k
          /\ vy w = vy goal + (vy start - vy goal) * (99 / 100) ^ S k
          /\ vz w = vz goal + (vz start - vz goal) * (99 / 100) ^ S k
          /\ dist_squared w goal = dist_squared start goal * (9801 / 10000) ^ S k)
    /\ (forall j, (j < n)%nat ->
          1 / 100 <= dist_squared start goal * (9801 / 10000) ^ j)
    /\ ((n < 1000)%nat -> dist_squared start goal * (9801 / 10000) ^ n < 1 / 100).
Proof.
  intros O obstacles start goal path n. unfold n, path. clear n path.
  destruct (plan_path_shape obstacles start goal) as (n & Hn & Hrun & Hfar & Hnear).
  rewrite Hrun, waypoints_length.
  split; [exact Hn|]. split; [|split; [exact Hfar|exact Hnear]].
  intros k w Hk.
  assert (Hkn : (k < n)%nat).
  { apply lookup_lt_Some in Hk. now rewrite waypoints_length in Hk. }
  rewrite waypoints_lookup in Hk by exact Hkn.
  assert (Hw : w = reached (S k) goal (1 / 100) start) by congruence.
  rewrite Hw, dist_squared_reached.
  rewrite (reached_closed_form goal (S k) start). cbn [vx vy vz].
  repeat match goal with |- _ /\ _ => split end; reflexivity.
Qed.

(** When the planner reaches its goal.  A start at squared distance at most
    5,000,000 from the goal (distance about 2236) gives fewer than 1000
    waypoints and ends within tolerance; a start at squared distance at
    least 10,000,000 (distance about 3162) uses all 1000 iterations and its
    last waypoint is still out of tolerance, and nothing is raised. *)
Theorem plan_path_reach :
  (forall (O : Type) (obstacles : O) (start goal : vec3 R),
     dist_squared start goal <= 5000000 ->
     let path := MechanicalDogOptimized.plan_path start goal obstacles in
     (length path < 1000)%nat
     /\ match last path with
        | Some w => dist_squared w goal < 1 / 100
        | None => dist_squared start goal < 1 / 100
        end)
  /\ (forall (O : Type) (obstacles : O) (start goal : vec3 R),
        10000000 <= dist_squared start goal ->
        let path := MechanicalDogOptimized.plan_path start goal obstacles in
        length path = 1000%nat
        /\ exists w, last path = Some w /\ 1 / 100 <= dist_squared w goal).
Proof.
  split.
  - intros O obstacles start goal Hnear path. unfold path. clear path.
    destruct (plan_path_shape obstacles start goal) as (n & Hn & Hrun & Hfar & Hstop).
    rewrite Hrun, waypoints_length.
    assert (Hlt : (n < 1000)%nat).
    { destruct (proj1 (Nat.lt_eq_cases n 1000) Hn) as [Hlt|Heq]; [exact Hlt|].
      assert (H999 : (999 < n)%nat) by (rewrite Heq; apply Nat.lt_succ_diag_r).
      specialize (Hfar 999%nat H999).
      pose proof near_range as Hrange.
      assert (dist_squared start goal * (9801 / 10000) ^ 999
              <= 5000000 * (9801 / 10000) ^ 999)
        by (apply Rmult_le_compat_r; [apply shrink_pow_nonneg|exact Hnear]).
      set (p := (9801 / 10000) ^ 999) in *. clearbody p. lra. }
    split; [exact Hlt|]. specialize (Hstop Hlt).
    destruct n as [|n]; [cbn; now rewrite Rmult_1_r in Hstop|].
    rewrite waypoints_last, dist_squared_reached. exact Hstop.
  - intros O obstacles start goal Hfar_start path. unfold path. clear path.
    destruct (plan_path_shape obstacles start goal) as (n & Hn & Hrun & Hfar & Hstop).
    rewrite Hrun, waypoints_length.
    assert (Hbound : forall j, (j <= 1000)%nat ->
              1 / 100 <= dist_squared start goal * (9801 / 10000) ^ j).
    { intros j Hj. pose proof far_range as Hrange.
      pose proof (shrink_pow_antitone j 1000 Hj) as Hanti.
      assert (10000000 * (9801 / 10000) ^ 1000 <= 10000000 * (9801 / 10000) ^ j)
        by (apply Rmult_le_compat_l; [lra|exact Hanti]).
      assert (10000000 * (9801 / 10000) ^ j
              <= dist_squared start goal * (9801 / 10000) ^ j)
        by (apply Rmult_le_compat_r; [apply shrink_pow_nonneg|exact Hfar_start]).
      set (p := (9801 / 10000) ^ 1000) in *. clearbody p. lra. }
    assert (Hfull : n = 1000%nat).
    { destruct (proj1 (Nat.lt_eq_cases n 1000) Hn) as [Hlt|Heq]; [|exact Heq].
      specialize (Hstop Hlt). specialize (Hbound n Hn). lra. }
    split; [exact Hfull|].
    destruct n as [|n]; [discriminate Hfull|].
    exists (reached (S n) goal (1 / 100) start).
    split; [apply waypoints_last|].
    rewrite dist_squared_reached. apply Hbound. exact Hn.
Qed.

End PlannerGeneralClaims.

(** A goal 4000 away along the x axis is out of reach. *)
Lemma plan_path_reach_witness :
  (10000000 <= dist_squared (Vec3 0 0 0) (Vec3 4000 0 0))%R
  /\ length (MechanicalDogOptimized.plan_path (Vec3 0 0 0)%R (Vec3 4000 0 0)%R tt)
     = 1000%nat.
Proof.
  assert (Hfar : (10000000 <= dist_squared (Vec3 0 0 0) (Vec3 4000 0 0))%R).
  { unfold dist_squared. cbn. lra. }
  split; [exact Hfar|].
  destruct plan_path_reach as (_ & Hreach).
  exact (proj1 (Hreach unit tt (Vec3 0 0 0)%R (Vec3 4000 0 0)%R Hfar)).
Defined.

(** A start on the x axis, 3 away from the goal. *)
Lemma plan_path_straight_line_witness :
  (length (MechanicalDogOptimized.plan_path (Vec3 0 0 0)%R (Vec3 3 0 0)%R tt)
   <= 1000)%nat.
Proof.
  exact (proj1 (plan_path_straight_line unit tt (Vec3 0 0 0)%R (Vec3 3 0 0)%R)).
Defined.


(** ** Planning, then estimating energy *)

Section PlannedEnergy.
Open Scope R_scope.

Lemma sqrt_scaled (x a : R) : 0 <= x -> 0 <= a -> sqrt (x * (a * a)) = sqrt x * a.
Proof.
  intros Hx Ha. rewrite sqrt_mult by nra. now rewrite sqrt_square.
Qed.

(** A step covers a hundredth of the distance left. *)
Lemma step_length (goal c : vec3 R) :
  sqrt (dist_squared c (step_toward goal (1 / 100) c))
  = sqrt (dist_squared c goal) * (1 / 100).
Proof.
  rewrite <- sqrt_scaled by (try apply dist_squared_nonneg; lra).
  f_equal. unfold dist_squared, step_toward. cbn. field.
Qed.

Lemma step_remaining (goal c : vec3 R) :
  sqrt (dist_squared (step_toward goal (1 / 100) c) goal)
  = sqrt (dist_squared c goal) * (99 / 100).
Proof.
  rewrite <- sqrt_scaled by (try apply dist_squared_nonneg; lra).
  f_equal. rewrite dist_squared_step. field.
Qed.

(** Along the planner's line the segment lengths telescope. *)
Lemma waypoint_segments (goal : vec3 R) (n : nat) :
  forall c : vec3 R,
  Rsum (segment_energies (c :: waypoints n goal (1 / 100) c))
  = 10 * (sqrt (dist_squared c goal)
          - sqrt (dist_squared (reached n goal (1 / 100) c) goal)).
Proof.
  induction n as [|n IH]; intros c.
  - cbn. ring.
  - cbn [waypoints reached].
    change (segment_energies (c :: step_toward goal (1 / 100) c :: ?l))
      with (fmul (distance c (step_toward goal (1 / 100) c)) (of_int 10)
            :: segment_energies (step_toward goal (1 / 100) c :: l)).
    change (Rsum (?e :: ?l)) with (e + Rsum l).
    rewrite IH. unfold distance. cbn [fmul fsqrt of_int R_scalar].
    rewrite step_length, step_remaining. lra.
Qed.

Lemma reached_remaining_le (goal : vec3 R) (n : nat) (c : vec3 R) :
  sqrt (dist_squared (reached n goal (1 / 100) c) goal) <= sqrt (dist_squared c goal).
Proof.
  apply sqrt_le_1_alt. rewrite dist_squared_reached.
  pose proof (dist_squared_nonneg c goal) as Hd.
  pose proof (shrink_pow_nonneg n) as Hp.
  assert (Hle : (9801 / 10000) ^ n <= 1).
  { pose proof (shrink_pow_antitone 0 n ltac:(lia)) as H0. now rewrite pow_O in H0. }
  set (p := (9801 / 10000) ^ n) in *. clearbody p. nra.
Qed.

(** The energy of a planned path.  [calculate_energy_consumption] applied
    to what [plan_path] returns raises nothing; its log has one entry per
    segment; its total is ten times the distance gained between the first
    and the last waypoint (their distances to the goal subtracted), zero
    for a path of no waypoint; and it lies between 0 and 9.9 times the
    distance from the start to the goal. *)
Theorem planned_path_energy :
  forall (O : Type) (obstacles : O) (start goal : vec3 R),
    let path := MechanicalDogOptimized.plan_path start goal obstacles in
    exists (total : R) (log : list (Z * R)),
      MechanicalDogOptimized.calculate_energy_consumption path = Return (total, log)
      /\ length log = (length path - 1)%nat
      /\ total = match head path, last path with
                 | Some first, Some final =>
                     10 * (euclidean_distance first goal - euclidean_distance final goal)
                 | _, _ => 0
                 end
      /\ 0 <= total <= 99 / 10 * euclidean_distance start goal.
Proof.
  intros O obstacles start goal path. unfold path. clear path.
  destruct (plan_path_shape obstacles start goal) as (n & _ & Hrun & _).
  rewrite Hrun, energy_total_reals.
  eexists; eexists. split; [reflexivity|].
  split; [rewrite numbered_length; apply segment_energies_length|].
  change (euclidean_distance start goal) with (sqrt (dist_squared start goal)).
  pose proof (sqrt_pos (dist_squared start goal)) as Hstart.
  destruct n as [|n].
  - cbn [waypoints segment_energies Rsum foldr head]. split; [reflexivity|]. lra.
  - rewrite waypoints_last.
    change (waypoints (S n) goal (1 / 100) start)
      with (step_toward goal (1 / 100) start
            :: waypoints n goal (1 / 100) (step_toward goal (1 / 100) start)).
    change (reached (S n) goal (1 / 100) start)
      with (reached n goal (1 / 100) (step_toward goal (1 / 100) start)).
    rewrite waypoint_segments. cbn [head].
    split; [reflexivity|].
    pose proof (reached_remaining_le goal n (step_toward goal (1 / 100) start)) as Hle.
    pose proof (sqrt_pos (dist_squared
                  (reached n goal (1 / 100) (step_toward goal (1 / 100) start)) goal)) as Hpos.
    rewrite step_remaining in Hle |- *. lra.
Qed.

End PlannedEnergy.

(** ** Runs of updates in the two classes *)

Section RunsCompared.
Context {T : Type} `{Scalar T}.

Lemma snapshots_last (v : vec3 T) (dts : list T) :
  forall p : vec3 T,
  dts <> [] -> last (snapshots p v dts) = Some (travelled p v dts).
Proof.
  induction dts as [|dt dts IH]; intros p Hne; [congruence|].
  destruct dts as [|dt' dts]; [reflexivity|].
  change (snapshots p v (dt :: dt' :: dts))
    with (moved p v dt :: snapshots (moved p v dt) v (dt' :: dts)).
  change (travelled p v (dt :: dt' :: dts))
    with (travelled (moved p v dt) v (dt' :: dts)).
  rewrite <- IH by congruence. reflexivity.
Qed.

Lemma slow_run_updates_cons (dt : T) (dts : list T) (self : MechanicalDog.dog T) :
  MechanicalDog.run_updates (dt :: dts) self
  = MechanicalDog.run_updates dts (snd (MechanicalDog.update_position dt self)).
Proof. reflexivity. Qed.

(** The slow class keeps every snapshot. *)
Lemma slow_run_updates_state (dts : list T) :
  forall self : MechanicalDog.dog T,
  MechanicalDog.movement_history (MechanicalDog.run_updates dts self)
  = MechanicalDog.movement_history self
    ++ snapshots (MechanicalDog.position self) (MechanicalDog.velocity self) dts
  /\ MechanicalDog.position (MechanicalDog.run_updates dts self)
     = travelled (MechanicalDog.position self) (MechanicalDog.velocity self) dts
  /\ MechanicalDog.velocity (MechanicalDog.run_updates dts self)
     = MechanicalDog.velocity self.
Proof.
  induction dts as [|dt dts IH]; intros self.
  - cbn. now rewrite app_nil_r.
  - rewrite slow_run_updates_cons.
    destruct (IH (snd (MechanicalDog.update_position dt self))) as (Hh & Hp & Hv).
    rewrite Hh, Hp, Hv. cbn [snd MechanicalDog.update_position
      MechanicalDog.movement_history MechanicalDog.position MechanicalDog.velocity
      MechanicalDog.set_movement_history MechanicalDog.set_position snapshots].
    rewrite <- app_assoc. repeat split.
Qed.

Lemma run_updates_position (dts : list T) :
  forall self : MechanicalDogOptimized.dog T,
  MechanicalDogOptimized.position (MechanicalDogOptimized.run_updates dts self)
  = travelled (MechanicalDogOptimized.position self)
              (MechanicalDogOptimized.velocity self) dts.
Proof.
  induction dts as [|dt dts IH]; intros self; [reflexivity|].
  rewrite run_updates_cons, IH. reflexivity.
Qed.

(** The two classes, run through the same updates from a fresh agent with
    the same velocity set, in any arithmetic: they end at the same
    position; the slow class holds every snapshot, one per update, and the
    optimized class exactly the last [max_history] of them; and in each
    class the newest entry of the history is the current position. *)
Theorem histories_compared :
  forall (name : string) (max_history : nat) (v : vec3 T) (dts : list T),
    let s := MechanicalDog.run_updates dts
               (MechanicalDog.set_velocity v (MechanicalDog.init name)) in
    let o := MechanicalDogOptimized.run_updates dts
               (MechanicalDogOptimized.set_velocity v
                  (MechanicalDogOptimized.init name max_history)) in
    MechanicalDog.position s = MechanicalDogOptimized.position o
    /\ length (MechanicalDog.movement_history s) = length dts
    /\ MechanicalDogOptimized.movement_history o
       = drop (length dts - max_history) (MechanicalDog.movement_history s)
    /\ (dts <> [] ->
        last (MechanicalDog.movement_history s) = Some (MechanicalDog.position s))
    /\ (dts <> [] -> (0 < max_history)%nat ->
        last (MechanicalDogOptimized.movement_history o)
        = Some (MechanicalDogOptimized.position o)).
Proof.
  intros name max_history v dts s o. unfold s, o. clear s o.
  destruct (slow_run_updates_state dts
              (MechanicalDog.set_velocity v (MechanicalDog.init name)))
    as (Hh & Hp & _).
  rewrite Hh, Hp, run_updates_position, fresh_history.
  cbn [MechanicalDog.set_velocity MechanicalDog.init MechanicalDog.movement_history
       MechanicalDog.position MechanicalDog.velocity
       MechanicalDogOptimized.set_velocity MechanicalDogOptimized.init
       MechanicalDogOptimized.position MechanicalDogOptimized.velocity app].
  split; [reflexivity|]. split; [apply snapshots_length|].
  split; [reflexivity|]. split.
  - intros Hne. now apply snapshots_last.
  - intros Hne Hcap.
    rewrite last_lookup, length_drop, lookup_drop, snapshots_length.
    rewrite <- (snapshots_last _ _ _ Hne), last_lookup, snapshots_length.
    f_equal. destruct dts; [congruence|]. simpl length. lia.
Qed.

End RunsCompared.

(** Three updates, a history of two. *)
Lemma histories_compared_witness :
  [1%R; 2%R; 3%R] <> []
  /\ last (MechanicalDog.movement_history
             (MechanicalDog.run_updates [1%R; 2%R; 3%R]
                (MechanicalDog.set_velocity (Vec3 1 0 0)%R (MechanicalDog.init "Test"))))
     = Some (MechanicalDog.position
               (MechanicalDog.run_updates [1%R; 2%R; 3%R]
                  (MechanicalDog.set_velocity (Vec3 1 0 0)%R (MechanicalDog.init "Test")))).
Proof.
  split; [discriminate|].
  destruct (histories_compared (T:=R) "Test" 2 (Vec3 1 0 0)%R [1%R; 2%R; 3%R])
    as (_ & _ & _ & Hnewest & _).
  apply Hnewest. discriminate.
Defined.

Section MotionReals.
Open Scope R_scope.

Lemma travelled_sum (v : vec3 R) (dts : list R) :
  forall p : vec3 R,
  travelled p v dts
  = Vec3 (vx p + vx v * Rsum dts) (vy p + vy v * Rsum dts) (vz p + vz v * Rsum dts).
Proof.
  induction dts as [|dt dts IH]; intros p.
  - destruct p as [x y z]. cbn. f_equal; ring.
  - change (travelled p v (dt :: dts)) with (travelled (moved p v dt) v dts).
    rewrite IH. change (Rsum (dt :: dts)) with (dt + Rsum dts).
    unfold moved. cbn. f_equal; ring.
Qed.

(** The integrator adds up.  Over the reals a run of updates moves the
    agent by the velocity times the sum of the time steps, in both classes,
    whatever their order and signs; so an update followed by the opposite
    update brings the agent back where it was. *)
Theorem run_updates_integrates :
  (forall (dts : list R) (self : MechanicalDogOptimized.dog R),
     let p := MechanicalDogOptimized.position self in
     let v := MechanicalDogOptimized.velocity self in
     MechanicalDogOptimized.position (MechanicalDogOptimized.run_updates dts self)
     = Vec3 (vx p + vx v * Rsum dts) (vy p + vy v * Rsum dts) (vz p + vz v * Rsum dts))
  /\ (forall (dts : list R) (self : MechanicalDog.dog R),
        let p := MechanicalDog.position self in
        let v := MechanicalDog.velocity self in
        MechanicalDog.position (MechanicalDog.run_updates dts self)
        = Vec3 (vx p + vx v * Rsum dts) (vy p + vy v * Rsum dts) (vz p + vz v * Rsum dts))
  /\ (forall (delta_time : R) (self : MechanicalDogOptimized.dog R),
        MechanicalDogOptimized.position
          (MechanicalDogOptimized.run_updates [delta_time; - delta_time] self)
        = MechanicalDogOptimized.position self).
Proof.
  split; [|split].
  - intros dts self p v. rewrite run_updates_position. apply travelled_sum.
  - intros dts self p v.
    destruct (slow_run_updates_state dts self) as (_ & Hp & _).
    rewrite Hp. apply travelled_sum.
  - intros delta_time self. rewrite run_updates_position, travelled_sum.
    destruct (MechanicalDogOptimized.position self) as [x y z].
    cbn. f_equal; ring.
Qed.

End MotionReals.

(** ** What no operation changes *)

Section Reachable.
Context {T : Type} `{Scalar T}.
Import MechanicalDogOptimized.

Lemma perform_frame (op : operation) (self : dog T) :
  leg_positions (perform op self) = leg_positions self
  /\ name (perform op self) = name self
  /\ maxlen (perform op self) = maxlen self
  /\ velocity (perform op self) = velocity self.
Proof.
  destruct op as [dt|i target|n| | |]; cbn [perform]; try (repeat split; fail).
  unfold scan_environment.
  destruct (for_each _ _ _) as [e|[readings idx]]; repeat split.
Qed.

Lemma act_all_snoc (acts : list action) (a : action) (self : dog T) :
  act_all (acts ++ [a]) self = act a (act_all acts self).
Proof. unfold act_all. now rewrite foldl_snoc. Qed.

Lemma act_all_invariants (acts : list action) (name0 : string) (max_history : nat) :
  let self := act_all acts (init name0 max_history) in
  leg_positions self = replicate 4 origin
  /\ name self = name0
  /\ maxlen self = max_history
  /\ history_bounded self.
Proof.
  induction acts as [|a acts IH] using rev_ind.
  - cbn. unfold history_bounded. cbn. repeat split. lia.
  - cbv zeta in IH |- *. rewrite act_all_snoc.
    destruct IH as (Hlegs & Hname & Hcap & Hbound).
    destruct a as [op|v]; cbn [act].
    + destruct (perform_frame op (act_all acts (init name0 max_history)))
        as (Hl & Hn & Hm & _).
      rewrite Hl, Hn, Hm. repeat split; try assumption.
      now apply perform_keeps_bound.
    + repeat split; assumption.
Qed.

(** The legs never move.  After any sequence of operations and velocity
    assignments on a fresh agent, the four legs are still at the origin,
    the name and the history capacity are those given at creation, and the
    history is within the capacity; so [calculate_leg_kinematics] returns
    the distance of the target from the origin for every leg index in
    [-4, 4), raises [IndexError] for every other index, and leaves the
    agent as it was. *)
Theorem legs_never_move :
  forall (acts : list action) (name0 : string) (max_history : nat),
    let self := act_all acts (init name0 max_history) in
    leg_positions self = replicate 4 origin
    /\ name self = name0
    /\ maxlen self = max_history
    /\ history_bounded self
    /\ (forall (leg_index : Z) (target : vec3 T),
          (-4 <= leg_index < 4)%Z ->
          calculate_leg_kinematics leg_index target self
          = (Return (distance origin target), self))
    /\ (forall (leg_index : Z) (target : vec3 T),
          (leg_index < -4 \/ 4 <= leg_index)%Z ->
          calculate_leg_kinematics leg_index target self = (Raise IndexError, self)).
Proof.
  intros acts name0 max_history self.
  destruct (act_all_invariants acts name0 max_history) as (Hlegs & Hname & Hcap & Hbound).
  fold self in Hlegs, Hname, Hcap, Hbound.
  split; [exact Hlegs|]. split; [exact Hname|]. split; [exact Hcap|].
  split; [exact Hbound|]. split.
  - intros leg_index target Hi. unfold calculate_leg_kinematics.
    destruct (py_getitem_in_range (leg_positions self) leg_index) as (leg & Hleg & Hget).
    { rewrite Hlegs. simpl. lia. }
    rewrite Hget. rewrite Hlegs in Hleg.
    apply lookup_replicate in Hleg. destruct Hleg as [-> _]. reflexivity.
  - intros leg_index target Hi. unfold calculate_leg_kinematics.
    rewrite py_getitem_out_of_range by (rewrite Hlegs; simpl; lia). reflexivity.
Qed.

End Reachable.

(** The last leg, by its negative index, after an update and a scan. *)
Lemma legs_never_move_witness :
  (-4 <= -1 < 4)%Z
  /\ fst (MechanicalDogOptimized.calculate_leg_kinematics (-1) (Vec3 3 4 0)%R
            (MechanicalDogOptimized.act_all
               [MechanicalDogOptimized.AssignVelocity (Vec3 1 1 0)%R;
                MechanicalDogOptimized.Call (MechanicalDogOptimized.UpdatePosition 1%R);
                MechanicalDogOptimized.Call (MechanicalDogOptimized.ScanEnvironment 2)]
               (MechanicalDogOptimized.init "Test" 10)))
     = Return (distance (Vec3 0 0 0) (Vec3 3 4 0))%R.
Proof.
  split; [lia|].
  destruct (legs_never_move (T:=R)
              [MechanicalDogOptimized.AssignVelocity (Vec3 1 1 0)%R;
               MechanicalDogOptimized.Call (MechanicalDogOptimized.UpdatePosition 1%R);
               MechanicalDogOptimized.Call (MechanicalDogOptimized.ScanEnvironment 2)]
              "Test" 10) as (_ & _ & _ & _ & Hin & _).
  rewrite (Hin (-1)%Z (Vec3 3 4 0)%R) by lia. reflexivity.
Defined.

(** ** More on the obstacle classifier *)

Section ClassifierLaws.
Open Scope Z_scope.

Lemma find_obstacles_filter (field : list Z) :
  MechanicalDogOptimized.find_obstacles field
  = list_to_set (filter (fun x => 1000 < x) field).
Proof.
  apply set_eq. intros x.
  rewrite find_obstacles_elem, elem_of_list_to_set, list_elem_of_filter. tauto.
Qed.

Lemma size_list_to_set_bound (l : list Z) :
  (size (list_to_set l : gset Z) <= length l)%nat.
Proof.
  induction l as [|x l IH]; cbn [list_to_set length].
  - rewrite size_empty. lia.
  - rewrite size_union_alt, size_singleton.
    assert (Hsub : (size (list_to_set l ∖ {[x]} : gset Z)
                    <= size (list_to_set l : gset Z))%nat)
      by (apply subseteq_size, subseteq_difference_l; reflexivity).
    lia.
Qed.

(** The loop of the slow class with obstacles already found: they stay in
    front, and the new ones follow in the order the loop alone finds them. *)
Lemma find_obstacles_slow_acc (field : list Z) :
  forall acc : list Z,
  foldl (fun obstacles reading =>
           if 1000 <? reading then
             if bool_decide (reading ∈ obstacles) then obstacles
             else obstacles ++ [reading]
           else obstacles)
        acc field
  = acc ++ filter (fun y => y ∉ acc) (MechanicalDog.find_obstacles field).
Proof.
  unfold MechanicalDog.find_obstacles.
  induction field as [|r field IH]; intros acc; cbn [foldl].
  - now rewrite filter_nil, app_nil_r.
  - destruct (Z.ltb_spec 1000 r) as [Hr|Hr]; [|apply IH].
    rewrite (bool_decide_eq_false_2 (r ∈ [])) by apply not_elem_of_nil.
    cbn [app]. rewrite (IH [r]). cbn [app].
    destruct (bool_decide_reflect (r ∈ acc)) as [Hin|Hout].
    + rewrite IH, filter_cons_False by tauto.
      f_equal. rewrite list_filter_filter. apply list_filter_iff.
      intros y. rewrite list_elem_of_singleton. split; [|tauto].
      intros Hy. split; [exact Hy|]. intros ->. contradiction.
    + rewrite IH, filter_cons_True by exact Hout.
      rewrite <- app_assoc. cbn [app]. do 2 f_equal.
      rewrite list_filter_filter. apply list_filter_iff.
      intros y. rewrite elem_of_app, list_elem_of_singleton. tauto.
Qed.

(** Laws of the classifier.  The optimized class: the obstacles of two
    fields put end to end are the union of their obstacles; reordering a
    field does not change its obstacles; there are no more obstacles than
    readings; and classifying the obstacles again gives them back.  The
    slow class lists the obstacles in the order of their first occurrence:
    a reading above 1000 comes first, followed by the obstacles of the rest
    that differ from it. *)
Theorem find_obstacles_laws :
  (forall a b : list Z,
     MechanicalDogOptimized.find_obstacles (a ++ b)
     = MechanicalDogOptimized.find_obstacles a ∪ MechanicalDogOptimized.find_obstacles b)
  /\ (forall a b : list Z,
        a ≡ₚ b ->
        MechanicalDogOptimized.find_obstacles a = MechanicalDogOptimized.find_obstacles b)
  /\ (forall a : list Z,
        (size (MechanicalDogOptimized.find_obstacles a) <= length a)%nat)
  /\ (forall a : list Z,
        MechanicalDogOptimized.find_obstacles
          (elements (MechanicalDogOptimized.find_obstacles a))
        = MechanicalDogOptimized.find_obstacles a)
  /\ (forall (x : Z) (a : list Z),
        MechanicalDog.find_obstacles (x :: a)
        = if 1000 <? x
          then x :: filter (fun y => y <> x) (MechanicalDog.find_obstacles a)
          else MechanicalDog.find_obstacles a).
Proof.
  split; [|split; [|split; [|split]]].
  - intros a b. apply set_eq. intros x.
    rewrite elem_of_union, !find_obstacles_elem, elem_of_app. tauto.
  - intros a b Hab. apply set_eq. intros x.
    rewrite !find_obstacles_elem. now rewrite Hab.
  - intros a. rewrite find_obstacles_filter.
    etransitivity; [apply size_list_to_set_bound|]. apply length_filter.
  - intros a. apply set_eq. intros x.
    rewrite find_obstacles_elem, elem_of_elements, find_obstacles_elem. tauto.
  - intros x a. unfold MechanicalDog.find_obstacles at 1. cbn [foldl].
    destruct (Z.ltb_spec 1000 x) as [Hx|Hx]; [|reflexivity].
    rewrite (bool_decide_eq_false_2 (x ∈ [])) by apply not_elem_of_nil.
    cbn [app]. rewrite find_obstacles_slow_acc. cbn [app]. f_equal.
    apply list_filter_iff. intros y. rewrite list_elem_of_singleton. tauto.
Qed.

End ClassifierLaws.

(** A field and a reordering of it. *)
Lemma find_obstacles_laws_witness :
  [1500; 500; 2000]%Z ≡ₚ [2000; 1500; 500]%Z
  /\ MechanicalDogOptimized.find_obstacles [1500; 500; 2000]%Z
     = MechanicalDogOptimized.find_obstacles [2000; 1500; 500]%Z.
Proof.
  assert (Hperm : [1500; 500; 2000]%Z ≡ₚ [2000; 1500; 500]%Z).
  { etransitivity; [apply Permutation_swap|].
    etransitivity; [apply Permutation_skip, Permutation_swap|].
    etransitivity; [apply Permutation_swap|].
    apply Permutation_skip, Permutation_swap. }
  split; [exact Hperm|].
  destruct find_obstacles_laws as (_ & Hreorder & _).
  exact (Hreorder _ _ Hperm).
Defined.

(** ** Scanning, then classifying *)

Section ScanObstacles.
Context {T : Type} `{Scalar T}.
Open Scope Z_scope.

Lemma int_readings_grid_elem (n x : Z) :
  x ∈ MechanicalDogOptimized.int_readings (grid (T:=T) n)
  <-> exists i j, 0 <= i < n /\ 0 <= j < n /\ x = i * i + j * j.
Proof.
  unfold MechanicalDogOptimized.int_readings, grid, grid_row, py_range.
  rewrite list_elem_of_omap. split.
  - intros (reading & Hin & Hint).
    apply list_elem_of_bind in Hin. destruct Hin as (i & Hrow & Hi).
    apply list_elem_of_fmap in Hrow. destruct Hrow as (j & -> & Hj).
    apply elem_of_seqZ in Hi, Hj. injection Hint as <-.
    exists i, j. lia.
  - intros (i & j & Hi & Hj & ->). exists (PyInt (i * i + j * j)).
    split; [|reflexivity].
    apply list_elem_of_bind. exists i. split; [|apply elem_of_seqZ; lia].
    apply list_elem_of_fmap. exists j. split; [reflexivity|apply elem_of_seqZ; lia].
Qed.

Lemma int_readings_grid_whole (n : Z) :
  @PyInt T <$> MechanicalDogOptimized.int_readings (grid (T:=T) n) = grid n.
Proof.
  unfold grid. induction (py_range n) as [|i rows IH]; [reflexivity|].
  rewrite bind_cons. unfold MechanicalDogOptimized.int_readings in *.
  rewrite omap_app, fmap_app, IH. f_equal.
  unfold grid_row. induction (py_range n) as [|j js IHj]; [reflexivity|].
  cbn. now rewrite IHj.
Qed.

Lemma int_readings_blank (k : nat) :
  MechanicalDogOptimized.int_readings (replicate k (blank : pynum T)) = [].
Proof. induction k as [|k IH]; [reflexivity|]. exact IH. Qed.

(** What a scan lets the classifier see.  The readings that the optimized
    [scan_environment(n)] returns hold an obstacle (an int above 1000)
    exactly when [n] is at least 24; with 23 samples or fewer, and so with
    the 20 of the simulation, [find_obstacles] returns the empty set.  For
    [n >= 0] every reading is an int. *)
Theorem scan_obstacles :
  forall (n : Z) (self : MechanicalDogOptimized.dog T),
    exists field : list (pynum T),
      fst (MechanicalDogOptimized.scan_environment n self) = Return field
      /\ (0 <= n -> @PyInt T <$> MechanicalDogOptimized.int_readings field = field)
      /\ (MechanicalDogOptimized.find_obstacles
            (MechanicalDogOptimized.int_readings field) = ∅
          <-> n <= 23).
Proof.
  intros n self. destruct (Z_lt_le_dec n 0) as [Hneg|Hpos].
  - destruct (scan_environment_negative n self Hneg) as (Hscan & _).
    rewrite Hscan. eexists. split; [reflexivity|]. split; [lia|].
    rewrite int_readings_blank. split; [lia|reflexivity].
  - rewrite (scan_environment_nonneg n self Hpos). exists (grid n).
    split; [reflexivity|]. split; [intros _; apply int_readings_grid_whole|].
    split.
    + intros Hnone. destruct (Z_le_gt_dec n 23) as [Hle|Hgt]; [exact Hle|].
      exfalso. apply (not_elem_of_empty (C:=gset Z) ((n - 1) * (n - 1) + (n - 1) * (n - 1))).
      rewrite <- Hnone. apply find_obstacles_elem. split; [|nia].
      apply int_readings_grid_elem. exists (n - 1), (n - 1). lia.
    + intros Hle. apply set_eq. intros x. rewrite find_obstacles_elem.
      split; [|intros Hx; now apply not_elem_of_empty in Hx].
      intros [Hx Hbig]. apply int_readings_grid_elem in Hx.
      destruct Hx as (i & j & Hi & Hj & ->). nia.
Qed.

End ScanObstacles.

(** A scan of 24 samples. *)
Lemma scan_obstacles_witness :
  (0 <= 24)%Z
  /\ exists field : list (pynum R),
       fst (MechanicalDogOptimized.scan_environment 24
              (MechanicalDogOptimized.init "Test" 1000)) = Return field
       /\ @PyInt R <$> MechanicalDogOptimized.int_readings field = field.
Proof.
  split; [lia|].
  destruct (scan_obstacles (T:=R) 24 (MechanicalDogOptimized.init "Test" 1000))
    as (field & Hscan & Hints & _).
  exists field. split; [exact Hscan|]. apply Hints. lia.
Defined.

(** ** More on the energy estimator *)

Section EnergyLaws.
Open Scope R_scope.

Lemma Rsum_cons (x : R) (l : list R) : Rsum (x :: l) = x + Rsum l.
Proof. reflexivity. Qed.

Lemma Rsum_app (l1 l2 : list R) : Rsum (l1 ++ l2) = Rsum l1 + Rsum l2.
Proof.
  induction l1 as [|x l1 IH].
  - change (Rsum l2 = 0 + Rsum l2). lra.
  - rewrite <- app_comm_cons, !Rsum_cons, IH. lra.
Qed.

Lemma Rsum_reverse (l : list R) : Rsum (reverse l) = Rsum l.
Proof.
  induction l as [|x l IH]; [reflexivity|].
  rewrite reverse_cons, Rsum_app, IH, !Rsum_cons.
  change (Rsum []) with 0. lra.
Qed.

Lemma euclidean_distance_sym (a b : vec3 R) :
  euclidean_distance a b = euclidean_distance b a.
Proof. unfold euclidean_distance. f_equal. ring. Qed.

Lemma segment_energies_app (p : list (vec3 R)) :
  forall (q : list (vec3 R)) (a b : vec3 R),
  last p = Some a -> head q = Some b ->
  segment_energies (p ++ q)
  = segment_energies p ++ [euclidean_distance a b * 10] ++ segment_energies q.
Proof.
  induction p as [|x p IH]; intros q a b Ha Hb; [discriminate|].
  destruct p as [|y p].
  - injection Ha as ->. destruct q as [|b' q]; [discriminate|].
    injection Hb as ->. reflexivity.
  - change (segment_energies ((x :: y :: p) ++ q))
      with (fmul (distance x y) (of_int 10) :: segment_energies ((y :: p) ++ q)).
    rewrite (IH q a b Ha Hb). reflexivity.
Qed.

Lemma segment_energies_reverse (p : list (vec3 R)) :
  segment_energies (reverse p) = reverse (segment_energies p).
Proof.
  induction p as [|x p IH]; [reflexivity|].
  destruct p as [|y p]; [reflexivity|].
  rewrite reverse_cons.
  rewrite (segment_energies_app (reverse (y :: p)) [x] y x).
  - rewrite IH.
    change (segment_energies (x :: y :: p))
      with (euclidean_distance x y * 10 :: segment_energies (y :: p)).
    rewrite reverse_cons. cbn [segment_energies app].
    now rewrite (euclidean_distance_sym y x).
  - rewrite reverse_cons. apply last_snoc.
  - reflexivity.
Qed.

Lemma segment_energies_nonneg (p : list (vec3 R)) : 0 <= Rsum (segment_energies p).
Proof.
  induction p as [|x p IH]; [cbn; lra|].
  destruct p as [|y p]; [cbn; lra|].
  change (segment_energies (x :: y :: p))
    with (euclidean_distance x y * 10 :: segment_energies (y :: p)).
  rewrite Rsum_cons.
  pose proof (sqrt_pos ((vx y - vx x) * (vx y - vx x) + (vy y - vy x) * (vy y - vy x)
                        + (vz y - vz x) * (vz y - vz x))) as Hd.
  unfold euclidean_distance. lra.
Qed.

(** The triangle inequality for the distance of the estimator. *)
Lemma euclidean_triangle (a b c : vec3 R) :
  euclidean_distance a c <= euclidean_distance a b + euclidean_distance b c.
Proof.
  unfold euclidean_distance.
  set (u1 := vx b - vx a). set (u2 := vy b - vy a). set (u3 := vz b - vz a).
  set (w1 := vx c - vx b). set (w2 := vy c - vy b). set (w3 := vz c - vz b).
  replace (vx c - vx a) with (u1 + w1) by (unfold u1, w1; ring).
  replace (vy c - vy a) with (u2 + w2) by (unfold u2, w2; ring).
  replace (vz c - vz a) with (u3 + w3) by (unfold u3, w3; ring).
  clearbody u1 u2 u3 w1 w2 w3.
  set (U := u1 * u1 + u2 * u2 + u3 * u3).
  set (W := w1 * w1 + w2 * w2 + w3 * w3).
  assert (HU : 0 <= U) by (unfold U; nra).
  assert (HW : 0 <= W) by (unfold W; nra).
  pose proof (sqrt_pos U) as HsU. pose proof (sqrt_pos W) as HsW.
  pose proof (sqrt_sqrt U HU) as HUU. pose proof (sqrt_sqrt W HW) as HWW.
  rewrite <- (sqrt_square (sqrt U + sqrt W)) by lra.
  apply sqrt_le_1_alt.
  assert (Hcs : (u1 * w1 + u2 * w2 + u3 * w3) * (u1 * w1 + u2 * w2 + u3 * w3) <= U * W).
  { unfold U, W.
    pose proof (Rle_0_sqr (u1 * w2 - u2 * w1)).
    pose proof (Rle_0_sqr (u1 * w3 - u3 * w1)).
    pose proof (Rle_0_sqr (u2 * w3 - u3 * w2)).
    unfold Rsqr in *. nra. }
  assert (Hdot : u1 * w1 + u2 * w2 + u3 * w3 <= sqrt U * sqrt W).
  { destruct (Rle_dec (u1 * w1 + u2 * w2 + u3 * w3) 0) as [Hneg|Hposd]; [nra|].
    apply Rnot_le_lt in Hposd.
    apply Rsqr_incr_0_var; [|nra].
    unfold Rsqr. replace (sqrt U * sqrt W * (sqrt U * sqrt W))
      with ((sqrt U * sqrt U) * (sqrt W * sqrt W)) by ring.
    rewrite HUU, HWW. exact Hcs. }
  replace ((u1 + w1) * (u1 + w1) + (u2 + w2) * (u2 + w2) + (u3 + w3) * (u3 + w3))
    with (U + W + 2 * (u1 * w1 + u2 * w2 + u3 * w3)) by (unfold U, W; ring).
  replace ((sqrt U + sqrt W) * (sqrt U + sqrt W))
    with (sqrt U * sqrt U + sqrt W * sqrt W + 2 * (sqrt U * sqrt W)) by ring.
  rewrite HUU, HWW. lra.
Qed.

Lemma euclidean_distance_diag (a : vec3 R) : euclidean_distance a a = 0.
Proof.
  unfold euclidean_distance.
  replace ((vx a - vx a) * (vx a - vx a) + (vy a - vy a) * (vy a - vy a)
           + (vz a - vz a) * (vz a - vz a)) with 0 by ring.
  apply sqrt_0.
Qed.

Lemma straight_line_bound (p : list (vec3 R)) :
  forall a z : vec3 R,
  head p = Some a -> last p = Some z ->
  10 * euclidean_distance a z <= Rsum (segment_energies p).
Proof.
  induction p as [|x p IH]; intros a z Ha Hz; [discriminate|].
  injection Ha as ->.
  destruct p as [|y p].
  - injection Hz as ->. rewrite euclidean_distance_diag. cbn. lra.
  - change (segment_energies (a :: y :: p))
      with (euclidean_distance a y * 10 :: segment_energies (y :: p)).
    rewrite Rsum_cons.
    specialize (IH y z eq_refl Hz).
    pose proof (euclidean_triangle a y z). lra.
Qed.

(** Laws of the estimator, over the reals.  The total energy of any path
    is not negative; it is at least ten times the straight-line distance
    from the first waypoint to the last; the path walked backwards costs
    the same; and the energy of two paths put end to end is the sum of
    their energies and of the energy of the segment that joins them. *)
Theorem energy_laws :
  (forall path : list (vec3 R),
     exists (total : R) (log : list (Z * R)),
       MechanicalDogOptimized.calculate_energy_consumption path = Return (total, log)
       /\ 0 <= total
       /\ (forall a z : vec3 R,
             head path = Some a -> last path = Some z ->
             10 * euclidean_distance a z <= total)
       /\ exists log' : list (Z * R),
            MechanicalDogOptimized.calculate_energy_consumption (reverse path)
            = Return (total, log'))
  /\ (forall (p q : list (vec3 R)) (a b : vec3 R) (tp tq : R) (lp lq : list (Z * R)),
        last p = Some a -> head q = Some b ->
        MechanicalDogOptimized.calculate_energy_consumption p = Return (tp, lp) ->
        MechanicalDogOptimized.calculate_energy_consumption q = Return (tq, lq) ->
        exists log : list (Z * R),
          MechanicalDogOptimized.calculate_energy_consumption (p ++ q)
          = Return (tp + euclidean_distance a b * 10 + tq, log)).
Proof.
  split.
  - intros path. rewrite energy_total_reals. eexists; eexists.
    split; [reflexivity|]. split; [apply segment_energies_nonneg|].
    split; [intros a z; apply straight_line_bound|].
    rewrite energy_total_reals, segment_energies_reverse, Rsum_reverse.
    eexists. reflexivity.
  - intros p q a b tp tq lp lq Ha Hb Hp Hq.
    rewrite energy_total_reals in Hp, Hq |- *.
    injection Hp as <- _. injection Hq as <- _.
    rewrite (segment_energies_app p q a b Ha Hb), !Rsum_app, Rsum_cons.
    change (Rsum []) with 0. eexists. f_equal. f_equal. lra.
Qed.

End EnergyLaws.

(** Two legs of a walk, joined. *)
Lemma energy_laws_witness :
  last [Vec3 0 0 0; Vec3 1 0 0]%R = Some (Vec3 1 0 0)%R
  /\ head [Vec3 1 1 0; Vec3 1 2 0]%R = Some (Vec3 1 1 0)%R
  /\ exists (total : R) (log : list (Z * R)),
       MechanicalDogOptimized.calculate_energy_consumption
         ([Vec3 0 0 0; Vec3 1 0 0] ++ [Vec3 1 1 0; Vec3 1 2 0])%R
       = Return (total, log).
Proof.
  split; [reflexivity|]. split; [reflexivity|].
  destruct energy_laws as (_ & Hjoin).
  destruct (Hjoin [Vec3 0 0 0; Vec3 1 0 0]%R [Vec3 1 1 0; Vec3 1 2 0]%R
              (Vec3 1 0 0)%R (Vec3 1 1 0)%R _ _ _ _ eq_refl eq_refl
              (energy_total_reals _) (energy_total_reals _)) as (log & Hlog).
  eexists; eexists. exact Hlog.
Defined.

(** ** The simulation *)

Section SimulationOptimized.
Context {T : Type} `{Scalar T}.
Import MechanicalDogOptimized.

Lemma leg_kinematics_in_range (self : dog T) (i : Z) (target : vec3 T) :
  length (leg_positions self) = 4%nat -> (-4 <= i < 4)%Z ->
  exists d : T, calculate_leg_kinematics i target self = (Return d, self).
Proof.
  intros Hlegs Hi. unfold calculate_leg_kinematics.
  destruct (py_getitem_in_range (leg_positions self) i) as (leg & _ & Hget);
    [rewrite Hlegs; simpl; lia|].
  rewrite Hget. eexists. reflexivity.
Qed.

(** The loop over the four legs returns the dog as it was. *)
Lemma simulate_legs (self : dog T) (target : vec3 T) :
  length (leg_positions self) = 4%nat ->
  for_each (py_range 4)
    (fun leg the_dog =>
       let '(distance, the_dog) := calculate_leg_kinematics leg target the_dog in
       _ ← distance; Return the_dog)
    self
  = Return self.
Proof.
  intros Hlegs. change (py_range 4) with [0; 1; 2; 3]%Z. cbn [for_each].
  destruct (leg_kinematics_in_range self 0 target Hlegs) as [d0 ->]; [lia|].
  cbn [mbind result_bind].
  destruct (leg_kinematics_in_range self 1 target Hlegs) as [d1 ->]; [lia|].
  cbn [mbind result_bind].
  destruct (leg_kinematics_in_range self 2 target Hlegs) as [d2 ->]; [lia|].
  cbn [mbind result_bind].
  destruct (leg_kinematics_in_range self 3 target Hlegs) as [d3 ->]; [lia|].
  reflexivity.
Qed.

Lemma simulate_step_state (step : Z) (self : dog T) :
  length (leg_positions self) = 4%nat ->
  simulate_step step self
  = Return (if (step mod 10 =? 0)%Z
            then set_sensor_data (grid 20) (snd (update_position (literal 1 10) self))
            else snd (update_position (literal 1 10) self)).
Proof.
  intros Hlegs. unfold simulate_step.
  rewrite update_position_state.
  destruct (step mod 10 =? 0)%Z.
  - rewrite scan_environment_nonneg by lia. cbn [mbind result_bind].
    apply simulate_legs. exact Hlegs.
  - cbn [mbind result_bind]. apply simulate_legs. exact Hlegs.
Qed.

Lemma run_updates_set_sensor_data (dts : list T) :
  forall (readings : list (pynum T)) (self : dog T),
  run_updates dts (set_sensor_data readings self)
  = set_sensor_data readings (run_updates dts self).
Proof.
  induction dts as [|dt dts IH]; intros readings self; [reflexivity|].
  rewrite !run_updates_cons, <- IH. reflexivity.
Qed.

Lemma run_updates_legs (dts : list T) :
  forall self : dog T, leg_positions (run_updates dts self) = leg_positions self.
Proof.
  induction dts as [|dt dts IH]; intros self; [reflexivity|].
  rewrite run_updates_cons, IH. reflexivity.
Qed.

Lemma run_updates_sensor_data (dts : list T) :
  forall self : dog T, sensor_data (run_updates dts self) = sensor_data self.
Proof.
  induction dts as [|dt dts IH]; intros self; [reflexivity|].
  rewrite run_updates_cons, IH. reflexivity.
Qed.

(** The loop of the simulation over the steps [a, a + k): [k] updates of a
    tenth of a second, and the sensor data of the last scan, if any. *)
Lemma simulate_loop (k : nat) :
  forall (a : Z) (self : dog T),
  length (leg_positions self) = 4%nat ->
  exists readings : list (pynum T),
    for_each (seqZ a (Z.of_nat k)) simulate_step self
    = Return (set_sensor_data readings
                (run_updates (replicate k (literal 1 10)) self))
    /\ (readings = sensor_data self \/ readings = grid 20)
    /\ ((a mod 10 = 0)%Z -> (0 < k)%nat -> readings = grid 20)
    /\ (k = 0%nat -> readings = sensor_data self).
Proof.
  induction k as [|k IH]; intros a self Hlegs.
  - exists (sensor_data self). split; [destruct self; reflexivity|].
    split; [now left|]. split; [lia|reflexivity].
  - rewrite seqZ_cons by lia. cbn [for_each].
    rewrite simulate_step_state by exact Hlegs. cbn [mbind result_bind].
    replace (Z.pred (Z.of_nat (S k))) with (Z.of_nat k) by lia.
    cbn [replicate]. rewrite run_updates_cons.
    destruct (Z.eqb_spec (a mod 10) 0) as [Hscan|Hskip].
    + destruct (IH (Z.succ a)
                  (set_sensor_data (grid 20) (snd (update_position (literal 1 10) self))))
        as (readings & Hrun & Hwhich & _); [exact Hlegs|].
      exists (grid 20). rewrite Hrun, run_updates_set_sensor_data.
      split; [|split; [now right|split; [reflexivity|discriminate]]].
      destruct Hwhich as [->| ->]; reflexivity.
    + destruct (IH (Z.succ a) (snd (update_position (literal 1 10) self)))
        as (readings & Hrun & Hwhich & _); [exact Hlegs|].
      exists readings. rewrite Hrun.
      split; [reflexivity|]. split; [exact Hwhich|].
      split; [intros Ha; contradiction|discriminate].
Qed.

End SimulationOptimized.

Section SimulationSlow.
Context {T : Type} `{Scalar T}.
Import MechanicalDog.

Lemma slow_leg_kinematics_in_range (self : dog T) (i : Z) (target : vec3 T) :
  length (leg_positions self) = 4%nat -> (-4 <= i < 4)%Z ->
  exists d : T, calculate_leg_kinematics i target self = (Return d, self).
Proof.
  intros Hlegs Hi. unfold calculate_leg_kinematics.
  destruct (py_getitem_in_range (leg_positions self) i) as (leg & _ & Hget);
    [rewrite Hlegs; simpl; lia|].
  rewrite Hget. eexists. reflexivity.
Qed.

Lemma slow_simulate_legs (self : dog T) (target : vec3 T) :
  length (leg_positions self) = 4%nat ->
  for_each (py_range 4)
    (fun leg the_dog =>
       let '(distance, the_dog) := calculate_leg_kinematics leg target the_dog in
       _ ← distance; Return the_dog)
    self
  = Return self.
Proof.
  intros Hlegs. change (py_range 4) with [0; 1; 2; 3]%Z. cbn [for_each].
  destruct (slow_leg_kinematics_in_range self 0 target Hlegs) as [d0 ->]; [lia|].
  cbn [mbind result_bind].
  destruct (slow_leg_kinematics_in_range self 1 target Hlegs) as [d1 ->]; [lia|].
  cbn [mbind result_bind].
  destruct (slow_leg_kinematics_in_range self 2 target Hlegs) as [d2 ->]; [lia|].
  cbn [mbind result_bind].
  destruct (slow_leg_kinematics_in_range self 3 target Hlegs) as [d3 ->]; [lia|].
  reflexivity.
Qed.

Lemma slow_simulate_step_state (step : Z) (self : dog T) :
  length (leg_positions self) = 4%nat ->
  simulate_step step self
  = Return (set_sensor_data (sensor_data self ++ (py_range 20 ≫= slow_row 20))
              (snd (update_position (literal 1 10) self))).
Proof.
  intros Hlegs. unfold simulate_step.
  change (update_position (literal 1 10) self)
    with (Return tt, snd (update_position (literal 1 10) self)).
  cbv beta iota. rewrite slow_scan_environment. cbn [mbind result_bind].
  apply slow_simulate_legs. exact Hlegs.
Qed.

Lemma slow_run_updates_set_sensor_data (dts : list T) :
  forall (readings : list (pynum T)) (self : dog T),
  run_updates dts (set_sensor_data readings self)
  = set_sensor_data readings (run_updates dts self).
Proof.
  induction dts as [|dt dts IH]; intros readings self; [reflexivity|].
  rewrite !slow_run_updates_cons, <- IH. reflexivity.
Qed.

(** The loop of the slow simulation over [k] steps: [k] updates, and [k]
    scans appended to the sensor data. *)
Lemma slow_simulate_loop (k : nat) :
  forall (a : Z) (self : dog T),
  length (leg_positions self) = 4%nat ->
  for_each (seqZ a (Z.of_nat k)) simulate_step self
  = Return (set_sensor_data
              (sensor_data self
               ++ mjoin (replicate k (py_range 20 ≫= slow_row 20)))
              (run_updates (replicate k (literal 1 10)) self)).
Proof.
  induction k as [|k IH]; intros a self Hlegs.
  - cbn. rewrite app_nil_r. destruct self; reflexivity.
  - rewrite seqZ_cons by lia. cbn [for_each].
    rewrite slow_simulate_step_state by exact Hlegs. cbn [mbind result_bind].
    replace (Z.pred (Z.of_nat (S k))) with (Z.of_nat k) by lia.
    rewrite IH by exact Hlegs.
    cbn [replicate]. rewrite slow_run_updates_cons, slow_run_updates_set_sensor_data.
    f_equal. cbn [sensor_data set_sensor_data]. rewrite <- app_assoc. reflexivity.
Qed.

End SimulationSlow.

Section SimulationReport.

Lemma seqZ_to_nat (a n : Z) : seqZ a n = seqZ a (Z.of_nat (Z.to_nat n)).
Proof. unfold seqZ. now rewrite Nat2Z.id. Qed.

Lemma mjoin_replicate_length {A} (k : nat) (l : list A) :
  length (mjoin (replicate k l)) = (k * length l)%nat.
Proof.
  induction k as [|k IH]; [reflexivity|].
  change (mjoin (replicate (S k) l)) with (l ++ mjoin (replicate k l)).
  rewrite length_app, IH. reflexivity.
Qed.

Lemma Rsum_replicate (k : nat) (x : R) : Rsum (replicate k x) = (INR k * x)%R.
Proof.
  induction k as [|k IH]; [cbn; lra|].
  cbn [replicate]. rewrite Rsum_cons, IH, S_INR. lra.
Qed.

(** What the simulation returns.  For any number of steps, in any
    arithmetic, neither class raises.  Both dogs end at the same position,
    the one reached by that many updates of a tenth of a second at
    velocity (1, 0.5, 0), with their four legs at the origin.  The
    optimized dog holds the last 1000 snapshots at most and the 400
    readings of its last scan (none if no step ran); the slow dog holds a
    snapshot per step and 400 more readings per step.  Over the reals the
    position after [N] steps is (N / 10, N / 20, 0). *)
Theorem simulation_report :
  (forall (T : Type) (HS : Scalar T) (num_steps : Z),
     let steps := Z.to_nat num_steps in
     let v := Vec3 (of_int 1) (literal 1 2) fzero in
     exists (o : MechanicalDogOptimized.dog T) (s : MechanicalDog.dog T),
       MechanicalDogOptimized.simulate_dog_movement num_steps = Return o
       /\ MechanicalDog.simulate_dog_movement num_steps = Return s
       /\ MechanicalDogOptimized.position o
          = travelled MechanicalDogOptimized.origin v (replicate steps (literal 1 10))
       /\ MechanicalDog.position s = MechanicalDogOptimized.position o
       /\ length (MechanicalDogOptimized.movement_history o) = Nat.min steps 1000
       /\ length (MechanicalDog.movement_history s) = steps
       /\ length (MechanicalDogOptimized.sensor_data o)
          = (if decide (0 < steps)%nat then 400 else 0)%nat
       /\ length (MechanicalDog.sensor_data s) = (400 * steps)%nat
       /\ MechanicalDogOptimized.leg_positions o = replicate 4 MechanicalDogOptimized.origin
       /\ MechanicalDog.leg_positions s = replicate 4 MechanicalDog.origin)
  /\ (forall num_steps : Z,
        exists o : MechanicalDogOptimized.dog R,
          MechanicalDogOptimized.simulate_dog_movement num_steps = Return o
          /\ MechanicalDogOptimized.position o
             = Vec3 (INR (Z.to_nat num_steps) / 10) (INR (Z.to_nat num_steps) / 20) 0)%R.
Proof.
  assert (Hopt : forall (T : Type) (HS : Scalar T) (num_steps : Z),
            exists readings : list (pynum T),
              MechanicalDogOptimized.simulate_dog_movement num_steps
              = Return (MechanicalDogOptimized.set_sensor_data readings
                          (MechanicalDogOptimized.run_updates
                             (replicate (Z.to_nat num_steps) (literal 1 10))
                             (MechanicalDogOptimized.set_velocity
                                (Vec3 (of_int 1) (literal 1 2) fzero)
                                (MechanicalDogOptimized.init "Spot" 1000))))
              /\ length readings
                 = (if decide (0 < Z.to_nat num_steps)%nat then 400 else 0)%nat).
  { intros T HS num_steps. unfold MechanicalDogOptimized.simulate_dog_movement, py_range.
    cbv zeta. rewrite (seqZ_to_nat 0 num_steps).
    destruct (simulate_loop (Z.to_nat num_steps) 0
                (MechanicalDogOptimized.set_velocity
                   (Vec3 (of_int 1) (literal 1 2) fzero)
                   (MechanicalDogOptimized.init "Spot" 1000)))
      as (readings & Hrun & _ & Hscan & Hnone); [reflexivity|].
    exists readings. split; [exact Hrun|].
    destruct (decide (0 < Z.to_nat num_steps)%nat) as [Hpos|Hzero].
    - rewrite Hscan by (reflexivity || exact Hpos). apply grid_nonneg_length.
    - rewrite Hnone by lia. reflexivity. }
  split.
  - intros T HS num_steps steps v. subst steps v.
    destruct (Hopt T HS num_steps) as (readings & Hrun & Hlen).
    eexists; eexists. split; [exact Hrun|].
    unfold MechanicalDog.simulate_dog_movement, py_range. cbv zeta.
    rewrite (seqZ_to_nat 0 num_steps), slow_simulate_loop by reflexivity.
    split; [reflexivity|].
    set (dts := replicate (Z.to_nat num_steps) (literal 1 10)).
    destruct (slow_run_updates_state dts
                (MechanicalDog.set_velocity (Vec3 (of_int 1) (literal 1 2) fzero)
                   (MechanicalDog.init "Spot"))) as (Hh & Hp & _).
    cbn [MechanicalDogOptimized.position MechanicalDogOptimized.set_sensor_data
         MechanicalDogOptimized.movement_history MechanicalDogOptimized.sensor_data
         MechanicalDogOptimized.leg_positions
         MechanicalDog.position MechanicalDog.set_sensor_data
         MechanicalDog.movement_history MechanicalDog.sensor_data
         MechanicalDog.leg_positions].
    rewrite run_updates_position, fresh_history, Hh, Hp, run_updates_legs.
    rewrite length_drop, !length_app, !snapshots_length, mjoin_replicate_length,
      slow_rows_length.
    unfold dts. rewrite !length_replicate.
    repeat match goal with |- _ /\ _ => split end;
      try reflexivity; try exact Hlen; try (simpl; lia).
    clear. induction (replicate (Z.to_nat num_steps) (literal 1 10)) as [|dt l IH]
      using rev_ind; [reflexivity|].
    unfold MechanicalDog.run_updates. rewrite foldl_snoc. exact IH.
  - intros num_steps.
    destruct (Hopt R R_scalar num_steps) as (readings & Hrun & _).
    eexists. split; [exact Hrun|].
    cbn [MechanicalDogOptimized.position MechanicalDogOptimized.set_sensor_data].
    rewrite run_updates_position, travelled_sum, Rsum_replicate.
    cbn. f_equal; field.
Qed.

End SimulationReport.

(** ** The slow class: calls and methods *)

Section SlowCalls.


End SlowCalls.


(** ** The classifier on float readings *)

Section ReadingsCoherence.

Lemma float_eqb_ints (r a : Z) : MechanicalDog.float_eqb (IZR r) (IZR a) = (r =? a)%Z.
Proof.
  unfold MechanicalDog.float_eqb. cbn [fltb R_scalar].
  destruct (Z.eqb_spec r a) as [->|Hne].
  - rewrite Rltb_false by lra. reflexivity.
  - destruct (Z_lt_le_dec r a) as [Hlt|Hge].
    + rewrite (Rltb_true (IZR r)) by (apply IZR_lt; lia). reflexivity.
    + rewrite (Rltb_false (IZR r)) by (apply IZR_le; lia).
      rewrite (Rltb_true (IZR a)) by (apply IZR_lt; lia). reflexivity.
Qed.

Lemma float_in_ints (r : Z) (acc : list Z) :
  existsb (MechanicalDog.float_eqb (IZR r)) (IZR <$> acc) = bool_decide (r ∈ acc).
Proof.
  induction acc as [|a acc IH].
  - cbn. symmetry. apply bool_decide_eq_false_2, not_elem_of_nil.
  - cbn [fmap list_fmap existsb].
    change (list_fmap Z R IZR acc) with (IZR <$> acc).
    rewrite IH, float_eqb_ints. destruct (Z.eqb_spec r a) as [->|Hne].
    + symmetry. apply bool_decide_eq_true_2. left.
    + cbn [orb]. apply bool_decide_ext. rewrite elem_of_cons. tauto.
Qed.

Lemma float_above_threshold (r : Z) : Rltb (IZR 1000) (IZR r) = (1000 <? r)%Z.
Proof.
  destruct (Z.ltb_spec 1000 r) as [Hlt|Hge].
  - apply Rltb_true, IZR_lt, Hlt.
  - apply Rltb_false, IZR_le, Hge.
Qed.

Lemma find_obstacles_floats_acc (field : list Z) :
  forall acc : list Z,
  foldl (fun obstacles reading =>
           if fltb (of_int 1000) reading then
             if existsb (MechanicalDog.float_eqb reading) obstacles then obstacles
             else obstacles ++ [reading]
           else obstacles)
        (IZR <$> acc) (IZR <$> field)
  = IZR <$> foldl (fun obstacles reading =>
                     if (1000 <? reading)%Z then
                       if bool_decide (reading ∈ obstacles) then obstacles
                       else obstacles ++ [reading]
                     else obstacles)
                  acc field.
Proof.
  induction field as [|r field IH]; intros acc; [reflexivity|].
  cbn [fmap list_fmap foldl fltb of_int R_scalar].
  change (list_fmap Z R IZR ?l) with (IZR <$> l).
  rewrite float_in_ints, float_above_threshold.
  destruct (1000 <? r)%Z; [|apply IH].
  destruct (bool_decide (r ∈ acc)); [apply IH|].
  rewrite <- IH. now rewrite fmap_app.
Qed.

(** Over the reals, on readings that are whole numbers, the slow classifier
    of float readings does what the classifier of int readings does. *)
Lemma find_obstacles_floats_ints (field : list Z) :
  MechanicalDog.find_obstacles_floats (IZR <$> field)
  = IZR <$> MechanicalDog.find_obstacles field.
Proof. exact (find_obstacles_floats_acc field []). Qed.

End ReadingsCoherence.
